(** * app.js: the calibrator and the counter/notes application

    Shallow embedding of the calibration pipeline of [src/app.js]
    ([deriveTextSignals], [deriveMetrics], [interpret], [updateSignal],
    [updateRawInput], [submitCalibration], [resetAll]) and of the
    counter/notes application ([CounterModel], [NotesModel], [Store],
    the handlers of [AppUI] and [AppController], [bootstrap]).

    Modelling choices:
    - JS numbers that enter the pipeline are finite; they are modelled as
      exact rationals [Q]. A value read from JS that may be NaN (Math.min of
      [undefined], 0/0, ...) or [undefined] (a hole read as [signals[0]])
      is a [num]: [Fin q], [NaN] or [Undefined].
    - Arithmetic on those numbers ([sum += v], the division of the mean,
      [toFixed(2)]) is exact in [Q]; JS rounds each step to a double, so a
      mean computed here can differ from the JS one (a double sum may round
      past the maximum; [toFixed] rounds the double nearest [x], not [x]).
      Comparisons, lengths and [Math.min]/[Math.max], which return one of
      their arguments, are exact in both.
    - Strings are [String.string]; each [ascii] is one UTF-16 code unit in
      the Latin-1 range, so [String.length] is JS [text.length].
    - The JS array [signalsDraft] may become sparse when [updateSignal]
      writes past its end; it is a [list (option Q)], [None] being a hole.
    - [Date.now()] is an argument of [submitCalibration].
    - [render()] only writes the DOM and is not modelled. *)

From Stdlib Require Import List String Ascii ZArith QArith Qminmax Qround Lia Lqa.
Import ListNotations.
Open Scope string_scope.

(** ** JS numbers *)

Inductive num : Type :=
| Fin (q : Q)
| NaN
| Undefined.

(** Input to [updateSignal]: [Number(e.target.value)], any JS number. *)
Inductive jsnum : Type :=
| JFinite (q : Q)
| JNaN
| JInfinity (positive : bool).

Definition Number_isFinite (v : jsnum) : bool :=
  match v with JFinite _ => true | _ => false end.

(** [Math.min] / [Math.max]: NaN if either argument is NaN or
    [undefined]. *)
Definition Math_min (a b : num) : num :=
  match a, b with Fin x, Fin y => Fin (Qmin x y) | _, _ => NaN end.

Definition Math_max (a b : num) : num :=
  match a, b with Fin x, Fin y => Fin (Qmax x y) | _, _ => NaN end.

Definition num_add (a b : num) : num :=
  match a, b with Fin x, Fin y => Fin (x + y) | _, _ => NaN end.

(** [a > b] on JS numbers: false as soon as one side is NaN (or
    [undefined], which compares as NaN). *)
Definition num_gt (a : num) (b : Q) : bool :=
  match a with Fin x => negb (Qle_bool x b) | _ => false end.

(** [Number(x.toFixed(2))] on the exact value [x]: [n / 100] for the
    integer [n] nearest to [x * 100], ties taken away from zero (toFixed
    works on |x| and prefixes the sign). JS applies it to the double [x],
    whose exact value may lie on the other side of a tie. *)
Definition round_half_up (x : Q) : Z :=
  Qfloor (x + (1 # 2)).

Definition toFixed2 (x : Q) : Q :=
  let n := if Qle_bool 0 x then round_half_up (x * 100)
           else (- round_half_up (- x * 100))%Z in
  Qred (n # 100).

(** ** Strings *)

(** JS [\s] and the characters removed by [trim()], in the Latin-1 range:
    TAB, LF, VT, FF, CR, SPACE, NBSP. *)
Definition is_js_space (c : ascii) : bool :=
  match nat_of_ascii c with
  | 9%nat | 10%nat | 11%nat | 12%nat | 13%nat | 32%nat | 160%nat => true
  | _ => false
  end.

Definition is_sentence_end (c : ascii) : bool :=
  match c with "."%char | "!"%char | "?"%char => true | _ => false end.

(** [text.split(re)] for a regex [re] that is a run [[class]+] of one
    character class: the pieces between maximal runs, with the empty piece
    before a leading run and after a trailing one; [""] gives [[""]]. *)
Fixpoint split_runs_aux (sep : ascii -> bool) (s : string)
    (cur : string) (in_run : bool) : list string :=
  match s with
  | EmptyString => [cur]
  | String c rest =>
      if sep c then
        if in_run then split_runs_aux sep rest cur true
        else cur :: split_runs_aux sep rest EmptyString true
      else split_runs_aux sep rest (cur ++ String c EmptyString) false
  end.

Definition split_runs (sep : ascii -> bool) (s : string) : list string :=
  split_runs_aux sep s EmptyString false.

Fixpoint trim_start (s : string) : string :=
  match s with
  | EmptyString => EmptyString
  | String c rest => if is_js_space c then trim_start rest else s
  end.

Fixpoint string_rev (s : string) (acc : string) : string :=
  match s with
  | EmptyString => acc
  | String c rest => string_rev rest (String c acc)
  end.

(** [s.trim()]. *)
Definition trim (s : string) : string :=
  string_rev (trim_start (string_rev (trim_start s) EmptyString)) EmptyString.

(** [filter(Boolean)] on strings keeps the non-empty ones. *)
Definition nonempty (s : string) : bool :=
  match s with EmptyString => false | _ => true end.

(** [toLowerCase()] on Latin-1 code units: A-Z and U+00C0..U+00DE except
    U+00D7 map 32 code points up. *)
Definition lower_char (c : ascii) : ascii :=
  let n := nat_of_ascii c in
  if (Nat.leb 65 n && Nat.leb n 90)
     || (Nat.leb 192 n && Nat.leb n 222 && negb (Nat.eqb n 215))
  then ascii_of_nat (n + 32)%nat else c.

Fixpoint toLowerCase (s : string) : string :=
  match s with
  | EmptyString => EmptyString
  | String c rest => String (lower_char c) (toLowerCase rest)
  end.

Definition positive_words : list string :=
  ["good"; "clear"; "success"; "positive"; "ready"].
Definition negative_words : list string :=
  ["bad"; "confused"; "fail"; "error"; "blocked"].

Definition includes (l : list string) (w : string) : bool :=
  existsb (String.eqb w) l.

(** The [words.forEach] loop computing [sentiment]. *)
Definition sentiment_step (acc : Z) (w : string) : Z :=
  let lw := toLowerCase w in
  let acc := if includes positive_words lw then (acc + 1)%Z else acc in
  if includes negative_words lw then (acc - 1)%Z else acc.

(** ** deriveTextSignals *)

Definition words_of (text : string) : list string :=
  filter nonempty (split_runs is_js_space text).

Definition sentences_of (text : string) : list string :=
  filter nonempty (map trim (split_runs is_sentence_end text)).

Definition deriveTextSignals (text : string) : list Q :=
  let words := words_of text in
  let sentences := sentences_of text in
  let sentiment := fold_left sentiment_step words 0%Z in
  [ inject_Z (Z.of_nat (String.length text));
    inject_Z (Z.of_nat (List.length words));
    inject_Z (Z.of_nat (List.length sentences));
    inject_Z sentiment ].

(** ** deriveMetrics *)

Record Metrics : Type := mkMetrics {
  min : num;
  max : num;
  mean : num;
  count : nat
}.

(** [signals[0]]: [undefined] on a hole or an empty array; the first
    [Math.min] over a present value then turns it into NaN. *)
Definition first_value (signals : list (option Q)) : num :=
  match signals with
  | Some q :: _ => Fin q
  | _ => Undefined
  end.

(** The [signals.forEach] loop; [forEach] skips holes. *)
Definition metrics_step (acc : num * num * Q) (v : option Q) : num * num * Q :=
  match v with
  | None => acc
  | Some q =>
      let '(mn, mx, sum) := acc in
      (Math_min mn (Fin q), Math_max mx (Fin q), sum + q)
  end.

Definition deriveMetrics (signals : list (option Q)) : Metrics :=
  let '(mn, mx, sum) :=
    fold_left metrics_step signals (first_value signals, first_value signals, 0) in
  {| min := mn;
     max := mx;
     mean := match signals with
             | [] => NaN                              (* 0 / 0 *)
             | _ => Fin (toFixed2 (sum / inject_Z (Z.of_nat (List.length signals))))
             end;
     count := List.length signals |}.

(** ** interpret *)

Inductive Level : Type := Low | Medium | High.
Inductive Readiness : Type := Ready | NotReady.

Record Interpretation : Type := mkInterpretation {
  pressure : Level;
  load : Level;
  clarity : Level;
  readiness : Readiness
}.

Definition level_eqb (a b : Level) : bool :=
  match a, b with
  | Low, Low | Medium, Medium | High, High => true
  | _, _ => false
  end.

(** [textSignals[i] || d]: [d] when the entry is missing or is [0]. *)
Definition js_or_default (textSignals : list Q) (i : nat) (d : Q) : Q :=
  match nth_error textSignals i with
  | Some q => if Qeq_bool q 0 then d else q
  | None => d
  end.

Definition interp_textLength (textSignals : list Q) : Q :=
  js_or_default textSignals 0 0.

Definition interp_sentenceCount (textSignals : list Q) : Q :=
  js_or_default textSignals 2 1.

Definition interpret (metrics : option Metrics) (textSignals : list Q)
    : Interpretation :=
  match metrics with
  | None =>
      {| pressure := Low; load := Low; clarity := Low; readiness := NotReady |}
  | Some m =>
      let textLength := interp_textLength textSignals in
      let sentenceCount := interp_sentenceCount textSignals in
      let p := num_add (mean m) (Fin textLength) in
      let pressure :=
        if num_gt p 200 then High
        else if num_gt p 80 then Medium else Low in
      let c := Fin (inject_Z (Z.of_nat (count m)) + sentenceCount) in
      let load :=
        if num_gt c 15 then High
        else if num_gt c 8 then Medium else Low in
      let clarity :=
        if num_gt (Fin sentenceCount) 6 then Low
        else if num_gt (Fin sentenceCount) 3 then Medium else High in
      let readiness :=
        if negb (level_eqb pressure High) && level_eqb clarity High
        then Ready else NotReady in
      {| pressure := pressure; load := load; clarity := clarity;
         readiness := readiness |}
  end.

(** ** Session state and actions *)

Inductive Status : Type := Idle | Running | Complete | Error.

Record Run : Type := mkRun {
  id : nat;
  timestamp : Z;
  signals : list (option Q);
  metrics : Metrics;
  derived : list Q
}.

Record State : Type := mkState {
  status : Status;
  signalsDraft : list (option Q);
  rawInput : string;
  runs : list Run;
  error : option string
}.

Definition default_signals : list (option Q) := [Some 10; Some 20; Some 30].

(** The global [state] object as the page loads it. *)
Definition initial_state : State :=
  {| status := Idle; signalsDraft := default_signals; rawInput := "";
     runs := []; error := None |}.

Definition raw_input_required : string :=
  "Raw Input is required to run calibration.".

(** [arr[index] = value] on a JS array: in range it overwrites the entry;
    past the end it grows the array to [index + 1], leaving holes. *)
Definition js_array_set (arr : list (option Q)) (index : nat) (v : Q)
    : list (option Q) :=
  if Nat.ltb index (List.length arr)
  then (firstn index arr ++ Some v :: skipn (S index) arr)%list
  else (arr ++ repeat None (index - List.length arr) ++ [Some v])%list.

(** [arr[index]] as read back: [None] is [undefined] (hole or past the end). *)
Definition js_array_get (arr : list (option Q)) (index : nat) : option Q :=
  match nth_error arr index with
  | Some v => v
  | None => None
  end.

Definition updateSignal (index : nat) (value : jsnum) (s : State) : State :=
  if negb (Number_isFinite value) then s
  else
    match value with
    | JFinite q =>
        {| status := status s; signalsDraft := js_array_set (signalsDraft s) index q;
           rawInput := rawInput s; runs := runs s; error := error s |}
    | _ => s
    end.

Definition updateRawInput (value : string) (s : State) : State :=
  {| status := status s; signalsDraft := signalsDraft s; rawInput := value;
     runs := runs s; error := error s |}.

(** [submitCalibration]; [now] is the value of [Date.now()]. *)
Definition submitCalibration (now : Z) (s : State) : State :=
  if negb (nonempty (trim (rawInput s))) then
    {| status := status s; signalsDraft := signalsDraft s; rawInput := rawInput s;
       runs := runs s; error := Some raw_input_required |}
  else
    let s1 := {| status := Running; signalsDraft := signalsDraft s;
                 rawInput := rawInput s; runs := runs s; error := None |} in
    let derived := deriveTextSignals (rawInput s1) in
    let signals := (signalsDraft s1 ++ map Some derived)%list in
    let metrics := deriveMetrics signals in
    let runs1 := {| id := List.length (runs s1) + 1; timestamp := now;
                    signals := signals; metrics := metrics;
                    derived := derived |} :: runs s1 in
    let runs2 := firstn 5 runs1 in
    {| status := Complete; signalsDraft := signalsDraft s1; rawInput := "";
       runs := runs2; error := error s1 |}.

Definition resetAll (s : State) : State :=
  {| status := Idle; signalsDraft := [Some 10; Some 20; Some 30]; rawInput := "";
     runs := []; error := None |}.

(** The whole mutation surface, as the event handlers call it. *)
Inductive Action : Type :=
| UpdateSignal (index : nat) (value : jsnum)
| UpdateRawInput (value : string)
| Submit (now : Z)
| Reset.

Definition step (a : Action) (s : State) : State :=
  match a with
  | UpdateSignal i v => updateSignal i v s
  | UpdateRawInput v => updateRawInput v s
  | Submit now => submitCalibration now s
  | Reset => resetAll s
  end.

Definition run_actions (acts : list Action) (s : State) : State :=
  fold_left (fun st a => step a st) acts s.

(** The latest interpretation, as [render] computes it. *)
Definition latest_interpretation (s : State) : Interpretation :=
  match runs s with
  | latest :: _ => interpret (Some (metrics latest)) (derived latest)
  | [] => interpret None []
  end.

Close Scope Q_scope.

(** Submitting each [(text, now)] in turn, after typing [text]; returns the
    final state and the runs created, newest first. *)
Fixpoint submit_all (inputs : list (string * Z)) (s : State) : State * list Run :=
  match inputs with
  | [] => (s, [])
  | (text, now) :: rest =>
      let s' := submitCalibration now (updateRawInput text s) in
      let '(s_end, created) := submit_all rest s' in
      (s_end, (created ++ firstn 1 (runs s'))%list)
  end.

(** The ids [submitCalibration] hands out to [n] successive runs when the
    log holds [k] runs before the first, newest first. *)
Fixpoint expected_ids (k n : nat) : list nat :=
  match n with
  | O => []
  | S n' => (expected_ids (Nat.min (S k) 5) n' ++ [k + 1])%list
  end.

Definition nonblank (text : string) : Prop := trim text <> "".

(** ** NotesModel, CounterModel, Store and the counter/notes controller

    The second application of [src/app.js]. A value read back from
    [localStorage] is classified by what [Store.load] sees:
    [getItem] throwing, no item, text [JSON.parse] rejects, or the parsed
    JSON value. [JSON.parse(JSON.stringify(v))] is [v] for the values the
    controller saves (objects of strings and integers). Counter values are
    integers in [Z]; JS adds exactly on them below 2^53. *)

Local Set Warnings "-register-all".

Inductive json : Type :=
| JNull
| JBool (b : bool)
| JNumber (q : Q)
| JString (s : string)
| JArray (items : list json)
| JObject (fields : list (string * json)).

(** Induction over JSON values with a hypothesis for each array element. *)
Fixpoint json_ind_nested (P : json -> Prop)
    (HNull : P JNull) (HBool : forall b, P (JBool b)) (HNumber : forall q, P (JNumber q))
    (HString : forall s, P (JString s))
    (HArray : forall items, Forall P items -> P (JArray items))
    (HObject : forall fields, P (JObject fields)) (j : json) : P j :=
  match j with
  | JNull => HNull
  | JBool b => HBool b
  | JNumber q => HNumber q
  | JString s => HString s
  | JArray items =>
      HArray items
        ((fix all (l : list json) : Forall P l :=
            match l with
            | [] => Forall_nil P
            | x :: rest =>
                Forall_cons x
                  (json_ind_nested P HNull HBool HNumber HString HArray HObject x)
                  (all rest)
            end) items)
  | JObject fields => HObject fields
  end.

Section JsonString.
(** [Number.prototype.toString], left abstract. *)
Variable number_toString : Q -> string.

(** [String(v)] on a parsed JSON value; [None] is the [TypeError] it
    throws. An array is [join(",")] of its elements, [null] elements giving
    the empty string. An object converts through [toString]: the inherited
    one gives "[object Object]"; an own "toString" key holds JSON data,
    which is not callable, and the inherited [valueOf] returns the object
    itself, so the conversion throws. *)
Fixpoint json_String (j : json) : option string :=
  match j with
  | JNull => Some "null"
  | JBool true => Some "true"
  | JBool false => Some "false"
  | JNumber q => Some (number_toString q)
  | JString s => Some s
  | JArray items =>
      (fix join (l : list json) : option string :=
         match l with
         | [] => Some ""
         | [x] => match x with JNull => Some "" | _ => json_String x end
         | x :: rest =>
             match (match x with JNull => Some "" | _ => json_String x end), join rest with
             | Some a, Some b => Some (a ++ "," ++ b)
             | _, _ => None
             end
         end) items
  | JObject fields =>
      if existsb (fun kv => String.eqb (fst kv) "toString") fields
      then None else Some "[object Object]"
  end.
End JsonString.

(** Where [String(v)] throws on a parsed JSON value: an object with an own
    "toString" key, directly or inside an array. *)
Fixpoint json_string_throws (j : json) : bool :=
  match j with
  | JObject fields => existsb (fun kv => String.eqb (fst kv) "toString") fields
  | JArray items =>
      (fix any (l : list json) : bool :=
         match l with
         | [] => false
         | x :: rest => json_string_throws x || any rest
         end) items
  | _ => false
  end.

(** [Array.prototype.map] with a callback that may throw ([None]): the
    first throw ends the call. *)
Fixpoint js_map {A B : Type} (f : A -> option B) (l : list A) : option (list B) :=
  match l with
  | [] => Some []
  | x :: rest =>
      match f x with
      | None => None
      | Some y => match js_map f rest with Some ys => Some (y :: ys) | None => None end
      end
  end.

(** [s.replace(/\s+/g, " ")]: every maximal run of whitespace becomes one
    space. *)
Fixpoint collapse_ws (s : string) (in_run : bool) : string :=
  match s with
  | EmptyString => EmptyString
  | String c rest =>
      if is_js_space c then
        if in_run then collapse_ws rest true
        else String " " (collapse_ws rest true)
      else String c (collapse_ws rest false)
  end.

(** [NotesModel.#sanitize] on a string: [trim()] then the replace. *)
Definition sanitize (s : string) : string :=
  collapse_ws (trim s) false.

(** [NotesModel.#sanitize(input)] on a JSON value: [String(input ?? "")],
    which may throw. *)
Definition sanitize_json (number_toString : Q -> string) (j : json) : option string :=
  match j with
  | JNull => Some (sanitize "")
  | _ => match json_String number_toString j with
         | Some t => Some (sanitize t)
         | None => None
         end
  end.

(** [new NotesModel(initialNotes)]; [None] is a [TypeError]: the one for
    a non-array, or one [String] throws inside [#sanitize]. *)
Definition NotesModel_create (number_toString : Q -> string) (initialNotes : json)
    : option (list string) :=
  match initialNotes with
  | JArray items =>
      match js_map (sanitize_json number_toString) items with
      | Some l => Some (filter nonempty l)
      | None => None
      end
  | _ => None
  end.

(** [notes.add(noteText)] for the string an input element yields: the
    returned value ([None] for [null]) and the new list. *)
Definition NotesModel_add (noteText : string) (notes : list string)
    : option string * list string :=
  let v := sanitize noteText in
  if negb (nonempty v) then (None, notes) else (Some v, (notes ++ [v])%list).

(** [Number.isInteger] on a finite number. *)
Definition Number_isInteger (q : Q) : bool :=
  Z.eqb (Z.rem (Qnum q) (Zpos (Qden q))) 0.

Definition jsnum_isInteger (v : jsnum) : bool :=
  match v with JFinite q => Number_isInteger q | _ => false end.

(** [notes.removeAt(index)]: the returned boolean and the new list. *)
Definition NotesModel_removeAt (index : jsnum) (notes : list string)
    : bool * list string :=
  match index with
  | JFinite q =>
      if Number_isInteger q then
        let i := (Qnum q / Zpos (Qden q))%Z in
        if (i <? 0)%Z || (i >=? Z.of_nat (List.length notes))%Z
        then (false, notes)
        else (true, (firstn (Z.to_nat i) notes ++ skipn (S (Z.to_nat i)) notes)%list)
      else (false, notes)
  | _ => (false, notes)
  end.

(** [new CounterModel(initialValue)]; [None] is the [TypeError]. *)
Definition CounterModel_create (initialValue : Q) : option Z :=
  if Number_isInteger initialValue
  then Some (Qnum initialValue / Zpos (Qden initialValue))%Z else None.

(** What [localStorage] holds under a key, as [Store.load] sees it. *)
Inductive slot : Type :=
| Unreadable          (* getItem throws *)
| Missing             (* getItem returns null *)
| Unparsable          (* JSON.parse throws *)
| Stored (j : json).

(** [Store.load]; [structuredClone] of a JSON value is the value. *)
Definition Store_load (sl : slot) (fallbackValue : json) : json :=
  match sl with
  | Stored j => j
  | _ => fallbackValue
  end.

(** [Store.save]: [JSON.stringify] then [setItem]. *)
Definition Store_save (value : json) : slot := Stored value.

(** Property lookup on a parsed value: [JSON.parse] keeps the last of
    duplicate keys; arrays and primitives have none of the keys used. *)
Definition json_get (j : json) (key : string) : option json :=
  match j with
  | JObject fields =>
      match find (fun kv => String.eqb (fst kv) key) (rev fields) with
      | Some (_, v) => Some v
      | None => None
      end
  | _ => None
  end.

Definition json_truthy (j : json) : bool :=
  match j with
  | JNull => false
  | JBool b => b
  | JNumber q => negb (Qeq_bool q 0)
  | JString s => nonempty s
  | _ => true
  end.

(** [typeof v === "object"] (arrays included, [null] excluded by the
    truthiness test before it). *)
Definition json_is_object (j : json) : bool :=
  match j with JArray _ | JObject _ | JNull => true | _ => false end.

Definition counter_fallback : json := JObject [("value", JNumber 0)].
Definition notes_fallback : json := JObject [("notes", JArray [])].

(** What the page shows: [AppUI.renderStatus] texts. *)
Inductive StatusText : Type :=
| StReady
| StCounter (v : Z)
| StNoteEmpty
| StNoteAdded
| StNoteRemoved.

(** The controller's world: models, the two storage keys, the rendered
    counter, notes and status, and whether [setItem] throws (quota). *)
Record App : Type := mkApp {
  app_counter : Z;
  app_notes : list string;
  counter_slot : slot;
  notes_slot : slot;
  shown_counter : Z;
  shown_notes : list string;
  shown_status : StatusText;
  storage_full : bool
}.

(** [bootstrap()] followed by [controller.start()]; [None] is a
    [TypeError] from a model constructor. *)
Definition bootstrap (number_toString : Q -> string) (cslot nslot : slot)
    (full : bool) : option App :=
  let counterState := Store_load cslot counter_fallback in
  let notesState := Store_load nslot notes_fallback in
  let initialCounterValue :=
    if json_truthy counterState && json_is_object counterState
    then match json_get counterState "value" with
         | Some (JNumber q) => if Number_isInteger q then q else 0%Q
         | _ => 0%Q
         end
    else 0%Q in
  let initialNotes :=
    if json_truthy notesState && json_is_object notesState
    then match json_get notesState "notes" with
         | Some (JArray items) => JArray items
         | _ => JArray []
         end
    else JArray [] in
  match CounterModel_create initialCounterValue,
        NotesModel_create number_toString initialNotes with
  | Some c, Some n =>
      Some {| app_counter := c; app_notes := n; counter_slot := cslot;
              notes_slot := nslot; shown_counter := c; shown_notes := n;
              shown_status := StReady; storage_full := full |}
  | _, _ => None
  end.

Inductive CounterKind : Type := Inc | Dec | ResetKind.

Inductive AppEvent : Type :=
| CounterClick (kind : CounterKind)
| NoteSubmit (text : string)
| RemoveClick (idx : jsnum).

(** [AppController.#updateCounter]: the model changes first; when
    [setItem] throws, the rendering after it never runs. *)
Definition updateCounter (kind : CounterKind) (a : App) : App :=
  let v := match kind with
           | Inc => (app_counter a + 1)%Z
           | Dec => (app_counter a - 1)%Z
           | ResetKind => 0%Z
           end in
  if storage_full a then
    {| app_counter := v; app_notes := app_notes a; counter_slot := counter_slot a;
       notes_slot := notes_slot a; shown_counter := shown_counter a;
       shown_notes := shown_notes a; shown_status := shown_status a;
       storage_full := true |}
  else
    {| app_counter := v; app_notes := app_notes a;
       counter_slot := Store_save (JObject [("value", JNumber (inject_Z v))]);
       notes_slot := notes_slot a; shown_counter := v;
       shown_notes := shown_notes a; shown_status := StCounter v;
       storage_full := false |}.

(** After the notes list changed: [notesStore.save], [renderNotes],
    [renderStatus]. *)
Definition save_and_render_notes (notes : list string) (st : StatusText) (a : App) : App :=
  if storage_full a then
    {| app_counter := app_counter a; app_notes := notes; counter_slot := counter_slot a;
       notes_slot := notes_slot a; shown_counter := shown_counter a;
       shown_notes := shown_notes a; shown_status := shown_status a;
       storage_full := true |}
  else
    {| app_counter := app_counter a; app_notes := notes; counter_slot := counter_slot a;
       notes_slot := Store_save (JObject [("notes", JArray (map JString notes))]);
       shown_counter := shown_counter a; shown_notes := notes; shown_status := st;
       storage_full := false |}.

(** [AppController.#addNote]. *)
Definition addNote (text : string) (a : App) : App :=
  match NotesModel_add text (app_notes a) with
  | (None, _) =>
      {| app_counter := app_counter a; app_notes := app_notes a;
         counter_slot := counter_slot a; notes_slot := notes_slot a;
         shown_counter := shown_counter a; shown_notes := shown_notes a;
         shown_status := StNoteEmpty; storage_full := storage_full a |}
  | (Some _, notes) => save_and_render_notes notes StNoteAdded a
  end.

(** [AppController.#removeNote]. *)
Definition removeNote (index : jsnum) (a : App) : App :=
  match NotesModel_removeAt index (app_notes a) with
  | (false, _) => a
  | (true, notes) => save_and_render_notes notes StNoteRemoved a
  end.

(** The handlers [AppUI.bindCounter] and [AppUI.bindNotes] install; the
    remove handler drops an index that is not an integer. *)
Definition app_step (e : AppEvent) (a : App) : App :=
  match e with
  | CounterClick kind => updateCounter kind a
  | NoteSubmit text => addNote text a
  | RemoveClick idx => if jsnum_isInteger idx then removeNote idx a else a
  end.

Definition app_run (es : list AppEvent) (a : App) : App :=
  fold_left (fun st e => app_step e st) es a.

(** The same world with a [localStorage] whose [setItem] succeeds. *)
Definition storage_writable (a : App) : App :=
  {| app_counter := app_counter a; app_notes := app_notes a;
     counter_slot := counter_slot a; notes_slot := notes_slot a;
     shown_counter := shown_counter a; shown_notes := shown_notes a;
     shown_status := shown_status a; storage_full := false |}.

(** [notes.clear()]. *)
Definition NotesModel_clear (notes : list string) : list string := [].

(** The NotesModel mutators, for sequences of calls on one model. *)
Inductive NotesOp : Type :=
| OpAdd (noteText : string)
| OpRemoveAt (index : jsnum)
| OpClear.

Definition notes_op (op : NotesOp) (notes : list string) : list string :=
  match op with
  | OpAdd t => snd (NotesModel_add t notes)
  | OpRemoveAt i => snd (NotesModel_removeAt i notes)
  | OpClear => NotesModel_clear notes
  end.

Definition notes_run (ops : list NotesOp) (notes : list string) : list string :=
  fold_left (fun n op => notes_op op n) ops notes.

(** The two values [bootstrap] hands to the model constructors. *)
Definition loaded_counter_value (cslot : slot) : Q :=
  let counterState := Store_load cslot counter_fallback in
  if json_truthy counterState && json_is_object counterState
  then match json_get counterState "value" with
       | Some (JNumber q) => if Number_isInteger q then q else 0%Q
       | _ => 0%Q
       end
  else 0%Q.

Definition loaded_notes_value (nslot : slot) : json :=
  let notesState := Store_load nslot notes_fallback in
  if json_truthy notesState && json_is_object notesState
  then match json_get notesState "notes" with
       | Some (JArray items) => JArray items
       | _ => JArray []
       end
  else JArray [].

(** ** List views used in the proofs about strings *)

Fixpoint drop_ws (l : list ascii) : list ascii :=
  match l with
  | [] => []
  | c :: rest => if is_js_space c then drop_ws rest else l
  end.

Fixpoint collapse_ws_l (l : list ascii) (in_run : bool) : list ascii :=
  match l with
  | [] => []
  | c :: rest =>
      if is_js_space c then
        if in_run then collapse_ws_l rest true else " "%char :: collapse_ws_l rest true
      else c :: collapse_ws_l rest false
  end.

(** Whitespace only as single spaces, none right after [prev_ws]. *)
Fixpoint single_spaces (l : list ascii) (prev_ws : bool) : bool :=
  match l with
  | [] => true
  | c :: rest =>
      if is_js_space c
      then Ascii.eqb c " "%char && negb prev_ws && single_spaces rest true
      else single_spaces rest false
  end.

(** No whitespace at either end. *)
Definition edges_ok (l : list ascii) : bool :=
  match l with
  | [] => true
  | c :: _ => negb (is_js_space c) && negb (is_js_space (last l c))
  end.

(** A note as [#sanitize] leaves it: non-empty, no whitespace at either
    end, whitespace only as single spaces. *)
Definition normalized_note (s : string) : bool :=
  nonempty s && edges_ok (list_ascii_of_string s)
  && single_spaces (list_ascii_of_string s) false.

(** What every reachable controller state keeps while storage accepts
    writes: each model is what a reload of its key would rebuild, the
    notes are normalized, and the screen shows the models. *)
Definition app_inv (nts : Q -> string) (a : App) : Prop :=
  storage_full a = false /\
  Forall (fun n => normalized_note n = true) (app_notes a) /\
  CounterModel_create (loaded_counter_value (counter_slot a)) = Some (app_counter a) /\
  NotesModel_create nts (loaded_notes_value (notes_slot a)) = Some (app_notes a) /\
  shown_counter a = app_counter a /\ shown_notes a = app_notes a.

(** The shape of the calibrator state after any sequence of actions from
    page load: the draft starts with a number and has at least three
    entries, and each run was built from a non-blank input. *)
Definition draft_shape (draft : list (option Q)) : Prop :=
  exists q rest, draft = Some q :: rest /\ 2 <= List.length rest.

Definition run_shape (r : Run) : Prop :=
  exists text q pre,
    nonblank text /\ derived r = deriveTextSignals text /\
    signals r = (Some q :: pre ++ map Some (derived r))%list /\
    2 <= List.length pre /\ metrics r = deriveMetrics (signals r).

Definition calib_inv (s : State) : Prop :=
  draft_shape (signalsDraft s) /\ Forall run_shape (runs s).

(** ** Session lemmas *)

Lemma nonempty_false_iff (x : string) : nonempty x = false <-> x = "".
Proof. destruct x; simpl; split; congruence. Qed.

Lemma submit_blank_eq (now : Z) (s : State) :
  trim (rawInput s) = "" ->
  submitCalibration now s =
  {| status := status s; signalsDraft := signalsDraft s; rawInput := rawInput s;
     runs := runs s; error := Some raw_input_required |}.
Proof. intros H. unfold submitCalibration. rewrite H. reflexivity. Qed.

(** The run [submitCalibration] builds for a non-blank input. *)
Definition built_run (now : Z) (s : State) : Run :=
  let derived := deriveTextSignals (rawInput s) in
  let signals := (signalsDraft s ++ map Some derived)%list in
  {| id := List.length (runs s) + 1; timestamp := now; signals := signals;
     metrics := deriveMetrics signals; derived := derived |}.

Lemma submit_nonblank_eq (now : Z) (s : State) :
  nonblank (rawInput s) ->
  submitCalibration now s =
  {| status := Complete; signalsDraft := signalsDraft s; rawInput := "";
     runs := firstn 5 (built_run now s :: runs s); error := None |}.
Proof.
  intros H. unfold submitCalibration.
  destruct (nonempty (trim (rawInput s))) eqn:E.
  - reflexivity.
  - apply nonempty_false_iff in E. contradiction.
Qed.

Lemma step_runs_le_5 (a : Action) (s : State) :
  List.length (runs s) <= 5 -> List.length (runs (step a s)) <= 5.
Proof.
  intros H. destruct a as [i v | v | now |]; simpl.
  - unfold updateSignal. destruct (Number_isFinite v) eqn:F; simpl; [|exact H].
    destruct v; simpl; exact H.
  - exact H.
  - destruct (nonempty (trim (rawInput s))) eqn:E.
    + rewrite submit_nonblank_eq.
      * cbn [runs]. rewrite length_firstn. lia.
      * intros Hb. rewrite Hb in E. discriminate.
    + apply nonempty_false_iff in E. rewrite submit_blank_eq by exact E. exact H.
  - lia.
Qed.

Lemma run_actions_runs_le_5 (acts : list Action) (s : State) :
  List.length (runs s) <= 5 -> List.length (runs (run_actions acts s)) <= 5.
Proof.
  revert s. induction acts as [|a acts IH]; intros s H; simpl.
  - exact H.
  - apply IH. apply step_runs_le_5. exact H.
Qed.

Lemma firstn_app_firstn {A : Type} (n : nat) (l m : list A) :
  firstn n (l ++ firstn n m) = firstn n (l ++ m).
Proof.
  rewrite !firstn_app, firstn_firstn.
  f_equal. f_equal. lia.
Qed.

Lemma submit_all_runs (inputs : list (string * Z)) (s : State) :
  Forall (fun p => nonblank (fst p)) inputs ->
  List.length (runs s) <= 5 ->
  runs (fst (submit_all inputs s)) = firstn 5 (snd (submit_all inputs s) ++ runs s).
Proof.
  revert s. induction inputs as [|[text now] rest IH]; intros s Hall Hle.
  - cbn [submit_all fst snd app]. symmetry. apply firstn_all2. exact Hle.
  - inversion Hall as [|? ? Hhd Htl]; subst. cbn [fst] in Hhd.
    pose proof (submit_nonblank_eq now (updateRawInput text s) Hhd) as Eq.
    specialize (IH (submitCalibration now (updateRawInput text s)) Htl).
    cbn [submit_all].
    destruct (submit_all rest _) as [s_end created] eqn:E. cbn [fst snd] in *.
    rewrite IH.
    + rewrite Eq. cbn [runs]. rewrite firstn_app_firstn, <- app_assoc. reflexivity.
    + rewrite Eq. cbn [runs]. rewrite length_firstn. lia.
Qed.

Lemma submit_all_ids (inputs : list (string * Z)) (s : State) :
  Forall (fun p => nonblank (fst p)) inputs ->
  List.length (runs s) <= 5 ->
  map id (snd (submit_all inputs s)) =
  expected_ids (List.length (runs s)) (List.length inputs).
Proof.
  revert s. induction inputs as [|[text now] rest IH]; intros s Hall Hle.
  - reflexivity.
  - inversion Hall as [|? ? Hhd Htl]; subst. cbn [fst] in Hhd.
    pose proof (submit_nonblank_eq now (updateRawInput text s) Hhd) as Eq.
    specialize (IH (submitCalibration now (updateRawInput text s)) Htl).
    cbn [submit_all List.length expected_ids].
    destruct (submit_all rest _) as [s_end created] eqn:E. cbn [fst snd] in *.
    rewrite Eq in IH. cbn [runs] in IH. rewrite length_firstn in IH.
    rewrite map_app, IH by lia. rewrite Eq. cbn [runs firstn map].
    cbn [built_run id updateRawInput runs].
    f_equal. f_equal. cbn [List.length]. lia.
Qed.

(** ** Claims about the session *)

(** C1 (code defect): the blank-input branch of [submitCalibration] sets
    the error message and returns without assigning [state.status]; it is
    the calibrator's only error path, and no assignment anywhere sets the
    status "error" listed in the state's comment. For every state with a
    blank RawInput, submit sets the message, appends no Run and leaves the
    status, the ManualSignal draft and the RawInput draft unchanged; from
    the initial state the status stays idle. *)
Theorem C1_blank_submit_keeps_status :
  (forall (now : Z) (s : State), trim (rawInput s) = "" ->
     let s' := submitCalibration now s in
     status s' = status s /\ error s' = Some raw_input_required /\
     runs s' = runs s /\ signalsDraft s' = signalsDraft s /\ rawInput s' = rawInput s) /\
  status (submitCalibration 0 (updateRawInput "   " initial_state)) = Idle.
Proof.
  split; [|reflexivity].
  intros now s H. cbv zeta. rewrite submit_blank_eq by exact H.
  repeat split.
Qed.

Lemma C1_blank_submit_keeps_status_witness :
  trim (rawInput (updateRawInput " 	 " initial_state)) = "" /\
  status (submitCalibration 7%Z (updateRawInput " 	 " initial_state)) = Idle.
Proof.
  split; [reflexivity|].
  apply (proj1 (proj1 C1_blank_submit_keeps_status 7%Z (updateRawInput " 	 " initial_state)
    eq_refl)).
Defined.

(** C2 (code defect): the id is [runs.length + 1] of the trimmed log, so
    after seven submits from the initial state the sixth and the seventh
    runs both carry id 6, and the log reads ids [6; 6; 5; 4; 3]. *)
Definition seven_submits : State :=
  run_actions
    [UpdateRawInput "a"; Submit 1; UpdateRawInput "a"; Submit 2;
     UpdateRawInput "a"; Submit 3; UpdateRawInput "a"; Submit 4;
     UpdateRawInput "a"; Submit 5; UpdateRawInput "a"; Submit 6;
     UpdateRawInput "a"; Submit 7]
    initial_state.

Theorem run_ids_repeat_after_trim :
  map id (runs seven_submits) = [6; 6; 5; 4; 3] /\
  map timestamp (runs seven_submits) = [7; 6; 5; 4; 3]%Z.
Proof. split; reflexivity. Qed.

(** C3: from the initial state, any sequence of actions leaves at most 5
    Runs in the RunLog; and six successful submits on an empty log leave
    exactly the newest five runs created, newest first, and not the
    oldest one. *)
Theorem runlog_bounded_newest_first :
  (forall acts : list Action,
      List.length (runs (run_actions acts initial_state)) <= 5) /\
  (forall (s0 : State) (inputs : list (string * Z)),
      runs s0 = [] -> List.length inputs = 6 ->
      Forall (fun p => nonblank (fst p)) inputs ->
      let '(s6, created) := submit_all inputs s0 in
      List.length created = 6 /\
      runs s6 = firstn 5 created /\
      ~ In (last created (built_run 0 s0)) (runs s6)).
Proof.
  split.
  - intros acts. apply run_actions_runs_le_5. simpl. lia.
  - intros s0 inputs H0 Hlen Hall.
    pose proof (submit_all_runs inputs s0 Hall) as Hr.
    pose proof (submit_all_ids inputs s0 Hall) as Hi.
    rewrite H0 in Hr, Hi. rewrite Hlen in Hi.
    specialize (Hr ltac:(simpl; lia)). specialize (Hi ltac:(simpl; lia)).
    destruct (submit_all inputs s0) as [s6 created]. cbn [fst snd] in *.
    rewrite app_nil_r in Hr. cbn in Hi.
    destruct created as [|r6 [|r5 [|r4 [|r3 [|r2 [|r1 [|r0 rest]]]]]]];
      try discriminate Hi.
    cbn [map] in Hi. injection Hi as I6 I5 I4 I3 I2 I1.
    rewrite Hr. cbn [firstn last List.length]. split; [reflexivity|].
    split; [reflexivity|].
    intros Hin. repeat destruct Hin as [Hin|Hin]; try contradiction; subst; lia.
Qed.

Lemma runlog_bounded_newest_first_witness :
  List.length (runs (run_actions [UpdateRawInput "x"; Submit 1] initial_state)) <= 5 /\
  List.length (snd (submit_all
     [("a", 1%Z); ("b", 2%Z); ("c", 3%Z); ("d", 4%Z); ("e", 5%Z); ("f", 6%Z)]
     initial_state)) = 6.
Proof.
  pose proof (runlog_bounded_newest_first) as [Ha Hb]. split.
  - apply Ha.
  - specialize (Hb initial_state
      [("a", 1%Z); ("b", 2%Z); ("c", 3%Z); ("d", 4%Z); ("e", 5%Z); ("f", 6%Z)]
      eq_refl eq_refl).
    assert (Hall : Forall (fun p => nonblank (fst p))
      [("a", 1%Z); ("b", 2%Z); ("c", 3%Z); ("d", 4%Z); ("e", 5%Z); ("f", 6%Z)]).
    { repeat constructor; unfold nonblank; simpl; discriminate. }
    specialize (Hb Hall).
    destruct (submit_all _ initial_state) as [s6 created]. cbn [snd].
    destruct Hb as [Hl _]. exact Hl.
Defined.

(** C4: a submit with non-blank (trimmed) RawInput prepends a Run whose
    signals are the ManualSignal draft followed by the derived signals and
    whose metrics are aggregated over them, trims the log to 5, clears
    RawInput, sets status to complete and keeps the ManualSignal draft. *)
Theorem submit_nonblank_prepends_run (now : Z) (s : State) :
  nonblank (rawInput s) ->
  let s' := submitCalibration now s in
  exists r : Run,
    runs s' = firstn 5 (r :: runs s) /\
    derived r = deriveTextSignals (rawInput s) /\
    signals r = (signalsDraft s ++ map Some (deriveTextSignals (rawInput s)))%list /\
    metrics r = deriveMetrics (signals r) /\
    rawInput s' = "" /\ status s' = Complete /\
    signalsDraft s' = signalsDraft s.
Proof.
  intros H. cbv zeta. rewrite submit_nonblank_eq by exact H.
  exists (built_run now s). cbn [runs rawInput status signalsDraft].
  repeat split.
Qed.

Lemma submit_nonblank_prepends_run_witness :
  nonblank (rawInput (updateRawInput "ok" initial_state)) /\
  signalsDraft (submitCalibration 3 (updateRawInput "ok" initial_state))
    = default_signals.
Proof.
  assert (H : nonblank (rawInput (updateRawInput "ok" initial_state))).
  { unfold nonblank. simpl. discriminate. }
  split; [exact H|].
  destruct (submit_nonblank_prepends_run 3 _ H) as (r & _ & _ & _ & _ & _ & _ & Hd).
  exact Hd.
Defined.

(** C5: with RawInput "Hello world." and the ManualSignal draft [10,20,30],
    submit derives [12, 2, 1, 0] and records a Run over
    [10,20,30,12,2,1,0] with min 0, max 30, mean 10.71 and count 7. *)
Theorem submit_hello_world (now : Z) (s : State) :
  signalsDraft s = default_signals ->
  rawInput s = "Hello world." ->
  match runs (submitCalibration now s) with
  | r :: _ =>
      derived r = [12; 2; 1; 0]%Q /\
      signals r = map Some [10; 20; 30; 12; 2; 1; 0]%Q /\
      metrics r = {| min := Fin 0; max := Fin 30; mean := Fin (1071 # 100);
                     count := 7 |}
  | [] => False
  end.
Proof.
  intros Hd Hr. unfold submitCalibration. rewrite Hd, Hr.
  vm_compute. repeat split.
Qed.

Lemma submit_hello_world_witness :
  match runs (submitCalibration 42 (updateRawInput "Hello world." initial_state)) with
  | r :: _ => metrics r = {| min := Fin 0; max := Fin 30; mean := Fin (1071 # 100);
                             count := 7 |}
  | [] => False
  end.
Proof.
  pose proof (submit_hello_world 42 (updateRawInput "Hello world." initial_state)
                eq_refl eq_refl) as H.
  destruct (runs _) as [|r rest]; [exact H|].
  destruct H as (_ & _ & Hm). exact Hm.
Defined.

(** C8: whatever the state (in particular after any number of submits),
    reset restores ManualSignal to [10,20,30], clears RawInput, empties the
    RunLog, clears the error and sets status to idle. *)
Theorem reset_restores_defaults (s : State) :
  let s' := resetAll s in
  signalsDraft s' = [Some 10; Some 20; Some 30]%Q /\ rawInput s' = "" /\
  runs s' = [] /\ error s' = None /\ status s' = Idle.
Proof. repeat split. Qed.

(** C10: a submit with non-blank (trimmed) RawInput sets the error message
    to null, clearing the message a blank submit left. *)
Theorem submit_nonblank_clears_error (now : Z) (s : State) :
  nonblank (rawInput s) -> error (submitCalibration now s) = None.
Proof. intros H. rewrite submit_nonblank_eq by exact H. reflexivity. Qed.

Lemma submit_nonblank_clears_error_witness :
  let s0 := updateRawInput "go" (submitCalibration 1 initial_state) in
  error s0 = Some raw_input_required /\ nonblank (rawInput s0) /\
  error (submitCalibration 2 s0) = None.
Proof.
  cbv zeta.
  assert (H : nonblank (rawInput (updateRawInput "go" (submitCalibration 1 initial_state)))).
  { unfold nonblank. vm_compute. discriminate. }
  split; [reflexivity|]. split; [exact H|].
  exact (submit_nonblank_clears_error 2 _ H).
Defined.

(** ** updateSignal *)

Lemma js_array_set_get_same (arr : list (option Q)) (i : nat) (v : Q) :
  js_array_get (js_array_set arr i v) i = Some v.
Proof.
  unfold js_array_get, js_array_set.
  destruct (Nat.ltb_spec i (List.length arr)) as [Hlt|Hge].
  - rewrite nth_error_app2; rewrite length_firstn; [|lia].
    replace (i - Nat.min i (List.length arr)) with 0 by lia. reflexivity.
  - rewrite nth_error_app2 by lia. rewrite nth_error_app2; rewrite repeat_length; [|lia].
    replace (i - List.length arr - (i - List.length arr)) with 0 by lia. reflexivity.
Qed.

Lemma js_array_set_get_other (arr : list (option Q)) (i j : nat) (v : Q) :
  j <> i -> js_array_get (js_array_set arr i v) j = js_array_get arr j.
Proof.
  intros Hne. unfold js_array_get, js_array_set.
  destruct (Nat.ltb_spec i (List.length arr)) as [Hlt|Hge].
  - destruct (Nat.lt_ge_cases j i) as [Hji|Hij].
    + rewrite nth_error_app1 by (rewrite length_firstn; lia).
      rewrite nth_error_firstn. destruct (Nat.ltb_spec j i); [reflexivity | lia].
    + rewrite nth_error_app2 by (rewrite length_firstn; lia).
      rewrite length_firstn.
      replace (j - Nat.min i (List.length arr)) with (S (j - S i)) by lia.
      cbn [nth_error]. rewrite nth_error_skipn.
      replace (S i + (j - S i)) with j by lia. reflexivity.
  - destruct (Nat.lt_ge_cases j (List.length arr)) as [Hj|Hj].
    + rewrite nth_error_app1 by exact Hj. reflexivity.
    + rewrite nth_error_app2 by exact Hj.
      rewrite (proj2 (nth_error_None arr j)) by exact Hj.
      destruct (Nat.lt_ge_cases (j - List.length arr) (i - List.length arr)) as [Hk|Hk].
      * rewrite nth_error_app1 by (rewrite repeat_length; exact Hk).
        rewrite nth_error_repeat by exact Hk. reflexivity.
      * rewrite nth_error_app2 by (rewrite repeat_length; exact Hk).
        rewrite repeat_length.
        destruct (j - List.length arr - (i - List.length arr)) as [|k] eqn:E; [lia|].
        cbn. destruct k; reflexivity.
Qed.

(** C9: a non-finite value (NaN or an infinity) leaves the whole state
    unchanged, so no error is surfaced; a finite value overwrites
    [ManualSignal[index]] and every other index reads as before, and no
    other field changes. *)
Theorem updateSignal_spec (s : State) (index : nat) (value : jsnum) :
  (Number_isFinite value = false -> updateSignal index value s = s) /\
  (forall q : Q, value = JFinite q ->
     let s' := updateSignal index value s in
     js_array_get (signalsDraft s') index = Some q /\
     (forall j, j <> index ->
        js_array_get (signalsDraft s') j = js_array_get (signalsDraft s) j) /\
     status s' = status s /\ rawInput s' = rawInput s /\
     runs s' = runs s /\ error s' = error s).
Proof.
  split.
  - intros H. unfold updateSignal. rewrite H. reflexivity.
  - intros q ->. cbv zeta. unfold updateSignal. cbn [Number_isFinite negb].
    cbn [signalsDraft status rawInput runs error].
    split; [apply js_array_set_get_same|].
    split; [intros j Hj; apply js_array_set_get_other; exact Hj|].
    repeat split.
Qed.

Lemma updateSignal_spec_witness :
  updateSignal 1 JNaN initial_state = initial_state /\
  updateSignal 2 (JInfinity true) initial_state = initial_state /\
  js_array_get (signalsDraft (updateSignal 4 (JFinite 7%Q) initial_state)) 4
    = Some 7%Q.
Proof.
  split; [apply (proj1 (updateSignal_spec initial_state 1 JNaN)); reflexivity|].
  split; [apply (proj1 (updateSignal_spec initial_state 2 (JInfinity true))); reflexivity|].
  apply (proj2 (updateSignal_spec initial_state 4 (JFinite 7%Q)) 7%Q eq_refl).
Defined.

(** ** interpret *)

Lemma num_gt_fin (x b : Q) : num_gt (Fin x) b = true <-> (b < x)%Q.
Proof.
  unfold num_gt. destruct (Qle_bool x b) eqn:E; cbn [negb].
  - apply Qle_bool_iff in E. split; [discriminate|]. intros H. exfalso.
    apply (Qlt_not_le b x); assumption.
  - split; [intros _|reflexivity].
    apply Qnot_le_lt. intros H. apply Qle_bool_iff in H. congruence.
Qed.

Lemma num_gt_fin_false (x b : Q) : num_gt (Fin x) b = false <-> (x <= b)%Q.
Proof.
  unfold num_gt. destruct (Qle_bool x b) eqn:E; cbn [negb].
  - apply Qle_bool_iff in E. split; [intros _; exact E | reflexivity].
  - split; [discriminate|]. intros H. apply Qle_bool_iff in H. congruence.
Qed.

Lemma interpret_pressure (m : Metrics) (textSignals : list Q) (y : Q) :
  num_add (mean m) (Fin (interp_textLength textSignals)) = Fin y ->
  pressure (interpret (Some m) textSignals) =
  if num_gt (Fin y) 200 then High else if num_gt (Fin y) 80 then Medium else Low.
Proof. intros H. unfold interpret. cbn zeta. rewrite H. reflexivity. Qed.

(** C7: the pressure thresholds are strict and High is checked first:
    [metrics.mean + textLength] equal to 200 gives Medium, equal to 201
    gives High, and 80 or below gives Low. *)
Theorem pressure_thresholds (m : Metrics) (textSignals : list Q) (y : Q) :
  num_add (mean m) (Fin (interp_textLength textSignals)) = Fin y ->
  ((y == 200)%Q -> pressure (interpret (Some m) textSignals) = Medium) /\
  ((y == 201)%Q -> pressure (interpret (Some m) textSignals) = High) /\
  ((y <= 80)%Q -> pressure (interpret (Some m) textSignals) = Low).
Proof.
  intros H. rewrite (interpret_pressure m textSignals y H).
  split; [|split]; intros Hy.
  - replace (num_gt (Fin y) 200) with false.
    + replace (num_gt (Fin y) 80) with true; [reflexivity|].
      symmetry. apply num_gt_fin. rewrite Hy. reflexivity.
    + symmetry. apply num_gt_fin_false. rewrite Hy. apply Qle_refl.
  - replace (num_gt (Fin y) 200) with true; [reflexivity|].
    symmetry. apply num_gt_fin. rewrite Hy. reflexivity.
  - replace (num_gt (Fin y) 200) with false.
    + replace (num_gt (Fin y) 80) with false; [reflexivity|].
      symmetry. apply num_gt_fin_false. exact Hy.
    + symmetry. apply num_gt_fin_false.
      apply (Qle_trans _ 80); [exact Hy | discriminate].
Qed.

Lemma pressure_thresholds_witness :
  pressure (interpret (Some (mkMetrics (Fin 0) (Fin 100) (Fin 100) 5))
                      [100; 3; 1; 0]%Q) = Medium /\
  pressure (interpret (Some (mkMetrics (Fin 0) (Fin 100) (Fin 101) 5))
                      [100; 3; 1; 0]%Q) = High.
Proof.
  split.
  - apply (pressure_thresholds (mkMetrics (Fin 0) (Fin 100) (Fin 100) 5)
             [100; 3; 1; 0]%Q 200 eq_refl). reflexivity.
  - apply (pressure_thresholds (mkMetrics (Fin 0) (Fin 100) (Fin 101) 5)
             [100; 3; 1; 0]%Q 201 eq_refl). reflexivity.
Defined.

(** ** deriveMetrics *)

Section Aggregator.
Local Open Scope Q_scope.

(** The [forEach] loop over hole-free signals keeps a running minimum and
    maximum that bound every value, and a sum between [length * min] and
    [length * max] above its start. *)
Lemma metrics_fold_bounds (l : list Q) (m0 M0 s0 : Q) :
  exists m M s,
    fold_left metrics_step (map Some l) (Fin m0, Fin M0, s0) = (Fin m, Fin M, s) /\
    m <= m0 /\ M0 <= M /\ Forall (fun x => m <= x /\ x <= M) l /\
    s0 + inject_Z (Z.of_nat (List.length l)) * m <= s /\
    s <= s0 + inject_Z (Z.of_nat (List.length l)) * M.
Proof.
  revert m0 M0 s0. induction l as [|q l IH]; intros m0 M0 s0.
  - exists m0, M0, s0. cbn [map fold_left List.length].
    change (inject_Z (Z.of_nat 0)) with 0.
    split; [reflexivity|]. split; [apply Qle_refl|]. split; [apply Qle_refl|].
    split; [constructor|]. split; lra.
  - cbn [map fold_left metrics_step Math_min Math_max].
    destruct (IH (Qmin m0 q) (Qmax M0 q) (s0 + q)) as (m & M & s & E & Hm & HM & Hall & Hlo & Hhi).
    exists m, M, s. rewrite E.
    pose proof (Q.le_min_l m0 q). pose proof (Q.le_min_r m0 q).
    pose proof (Q.le_max_l M0 q). pose proof (Q.le_max_r M0 q).
    cbn [List.length]. rewrite Nat2Z.inj_succ, <- Z.add_1_r, inject_Z_plus in *.
    split; [reflexivity|].
    split; [apply (Qle_trans _ _ _ Hm); assumption|].
    split; [apply (Qle_trans _ _ _ H1); assumption|].
    split; [constructor; [split; lra | exact Hall]|].
    change (inject_Z 1) with 1.
    rewrite !Qmult_plus_distr_l, !Qmult_1_l.
    generalize dependent (inject_Z (Z.of_nat (List.length l)) * m).
    generalize dependent (inject_Z (Z.of_nat (List.length l)) * M).
    intros hi Hhi lo Hlo. split; lra.
Qed.

(** C6 (counterexample): the rounded mean can fall below the minimum:
    over [0.001] the aggregator reports min 0.001 and mean 0. *)
Lemma C6_rounded_mean_below_min :
  min (deriveMetrics [Some (1 # 1000)]) = Fin (1 # 1000) /\
  mean (deriveMetrics [Some (1 # 1000)]) = Fin 0 /\
  ~ ((1 # 1000) <= 0).
Proof.
  split; [reflexivity|]. split; [vm_compute; reflexivity|].
  intros H. apply Qle_bool_iff in H. discriminate H.
Qed.

(** [Math.min] and [Math.max] return one of their arguments, so the
    running minimum and maximum of the loop are the start value or one of
    the signals. *)
Lemma metrics_fold_in (l : list Q) (m0 M0 s0 m M s : Q) :
  fold_left metrics_step (map Some l) (Fin m0, Fin M0, s0) = (Fin m, Fin M, s) ->
  In m (m0 :: l) /\ In M (M0 :: l).
Proof.
  revert m0 M0 s0. induction l as [|q l IH]; intros m0 M0 s0 E.
  - cbn [map fold_left] in E. injection E as -> -> ->. split; left; reflexivity.
  - cbn [map fold_left metrics_step Math_min Math_max] in E.
    destruct (IH _ _ _ E) as [Hm HM].
    assert (Hmin : Qmin m0 q = m0 \/ Qmin m0 q = q).
    { unfold Qmin, GenericMinMax.gmin. destruct (m0 ?= q); auto. }
    assert (Hmax : Qmax M0 q = M0 \/ Qmax M0 q = q).
    { unfold Qmax, GenericMinMax.gmax. destruct (M0 ?= q); auto. }
    split.
    + destruct Hm as [Hm|Hm].
      * destruct Hmin as [Hq|Hq]; rewrite Hq in Hm; subst; cbn; auto.
      * right. right. exact Hm.
    + destruct HM as [HM|HM].
      * destruct Hmax as [Hq|Hq]; rewrite Hq in HM; subst; cbn; auto.
      * right. right. exact HM.
Qed.

(** C6 (amended): over a non-empty sequence [S], [count] is [length S], and
    [min] and [max] are the least and the greatest element of [S]: both are
    elements of [S] and every element lies between them (so [min <= max]).
    The mean, rounded with [toFixed(2)], is not bounded by them. *)
Theorem deriveMetrics_bounds (S : list Q) :
  S <> [] ->
  let mt := deriveMetrics (map Some S) in
  count mt = List.length S /\
  exists lo hi : Q,
    min mt = Fin lo /\ max mt = Fin hi /\ In lo S /\ In hi S /\
    Forall (fun x => lo <= x /\ x <= hi) S.
Proof.
  intros Hne. destruct S as [|a l]; [contradiction|]. cbv zeta.
  unfold deriveMetrics. cbn [first_value map].
  destruct (metrics_fold_bounds (a :: l) a a 0)
    as (m & M & s & E & _ & _ & Hall & _ & _).
  pose proof (metrics_fold_in _ _ _ _ _ _ _ E) as [Hm HM].
  cbn [map] in E. rewrite E. cbn [count min max mean].
  change (List.length (Some a :: map Some l)) with (S (List.length (map Some l))).
  rewrite length_map. split; [reflexivity|].
  exists m, M. split; [reflexivity|]. split; [reflexivity|].
  split; [destruct Hm as [<-|Hm]; [left; reflexivity | exact Hm]|].
  split; [destruct HM as [<-|HM]; [left; reflexivity | exact HM]|].
  exact Hall.
Qed.

Lemma deriveMetrics_bounds_witness :
  min (deriveMetrics (map Some [10; 20; 30; 12; 2; 1; 0])) = Fin 0 /\
  max (deriveMetrics (map Some [10; 20; 30; 12; 2; 1; 0])) = Fin 30 /\
  count (deriveMetrics (map Some [10; 20; 30; 12; 2; 1; 0])) = 7%nat.
Proof.
  split; [reflexivity|]. split; [reflexivity|].
  apply (proj1 (deriveMetrics_bounds [10; 20; 30; 12; 2; 1; 0] ltac:(discriminate))).
Defined.

End Aggregator.

(** ** Strings as lists: [trim] and the whitespace collapse *)

Module StrFacts.

Lemma L_trim_start (s : string) :
  list_ascii_of_string (trim_start s) = drop_ws (list_ascii_of_string s).
Proof.
  induction s as [|c s IH]; [reflexivity|]. cbn [trim_start list_ascii_of_string drop_ws].
  destruct (is_js_space c); [exact IH | reflexivity].
Qed.

Lemma L_string_rev (s acc : string) :
  list_ascii_of_string (string_rev s acc) =
  (rev (list_ascii_of_string s) ++ list_ascii_of_string acc)%list.
Proof.
  revert acc. induction s as [|c s IH]; intros acc; [reflexivity|].
  cbn [string_rev list_ascii_of_string rev]. rewrite IH.
  cbn [list_ascii_of_string]. rewrite <- app_assoc. reflexivity.
Qed.

Lemma L_trim (s : string) :
  list_ascii_of_string (trim s) =
  rev (drop_ws (rev (drop_ws (list_ascii_of_string s)))).
Proof.
  unfold trim. rewrite L_string_rev, L_trim_start, L_string_rev, L_trim_start.
  cbn [list_ascii_of_string]. rewrite !app_nil_r. reflexivity.
Qed.

Lemma L_collapse (s : string) (b : bool) :
  list_ascii_of_string (collapse_ws s b) = collapse_ws_l (list_ascii_of_string s) b.
Proof.
  revert b. induction s as [|c s IH]; intros b; [reflexivity|].
  cbn [collapse_ws list_ascii_of_string collapse_ws_l].
  destruct (is_js_space c); [destruct b|]; cbn [list_ascii_of_string]; rewrite ?IH; reflexivity.
Qed.

Lemma L_inj (s t : string) :
  list_ascii_of_string s = list_ascii_of_string t -> s = t.
Proof.
  intros H. rewrite <- (string_of_list_ascii_of_string s), <- (string_of_list_ascii_of_string t).
  f_equal. exact H.
Qed.

Lemma L_nil (s : string) : list_ascii_of_string s = [] <-> s = "".
Proof. destruct s; cbn; split; congruence. Qed.

Lemma drop_ws_spec (l : list ascii) :
  drop_ws l = [] \/ exists c t, drop_ws l = c :: t /\ is_js_space c = false.
Proof.
  induction l as [|c l IH]; [left; reflexivity|]. cbn [drop_ws].
  destruct (is_js_space c) eqn:E; [exact IH|]. right. exists c, l. split; [reflexivity|exact E].
Qed.

Lemma drop_ws_app_nil (x y : list ascii) :
  drop_ws x = [] -> drop_ws (x ++ y) = drop_ws y.
Proof.
  induction x as [|c x IH]; intros H; [reflexivity|]. cbn [drop_ws app] in *.
  destruct (is_js_space c); [apply IH, H | discriminate].
Qed.

Lemma drop_ws_app_cons (x y : list ascii) :
  drop_ws x <> [] -> drop_ws (x ++ y) = (drop_ws x ++ y)%list.
Proof.
  induction x as [|c x IH]; intros H; [contradiction|]. cbn [drop_ws app] in *.
  destruct (is_js_space c); [apply IH, H | reflexivity].
Qed.

Lemma drop_ws_nonspace (c : ascii) (t : list ascii) :
  is_js_space c = false -> drop_ws (c :: t) = c :: t.
Proof. intros H. cbn. rewrite H. reflexivity. Qed.

Lemma last_indep {A : Type} (l : list A) (d d' : A) :
  l <> [] -> last l d = last l d'.
Proof.
  induction l as [|x l IH]; intros H; [contradiction|].
  destruct l as [|y l]; [reflexivity|]. apply IH. discriminate.
Qed.

Lemma last_cons_nonnil {A : Type} (a : A) (l : list A) (d : A) :
  l <> [] -> last (a :: l) d = last l d.
Proof. destruct l; [contradiction | reflexivity]. Qed.

Lemma trim_edges (l : list ascii) :
  edges_ok (rev (drop_ws (rev (drop_ws l)))) = true.
Proof.
  destruct (drop_ws_spec l) as [E | (c & t & E & Hc)]; rewrite E; [reflexivity|].
  cbn [rev]. destruct (drop_ws_spec (rev t)) as [E2 | (c' & t' & E2 & Hc')].
  - rewrite (drop_ws_app_nil _ _ E2). rewrite drop_ws_nonspace by exact Hc.
    cbn. rewrite Hc. reflexivity.
  - rewrite drop_ws_app_cons by (rewrite E2; discriminate). rewrite E2.
    rewrite rev_app_distr. cbn [rev app].
    unfold edges_ok. change (c :: rev t' ++ [c'])%list with ((c :: rev t') ++ [c'])%list.
    rewrite last_last. rewrite Hc, Hc'. reflexivity.
Qed.

Lemma trim_on_edges_ok (l : list ascii) :
  edges_ok l = true -> rev (drop_ws (rev (drop_ws l))) = l.
Proof.
  destruct l as [|c t]; intros H; [reflexivity|].
  unfold edges_ok in H. apply andb_prop in H as [H1 H2].
  apply Bool.negb_true_iff in H1, H2.
  rewrite drop_ws_nonspace by exact H1.
  destruct (exists_last (l := c :: t) ltac:(discriminate)) as (l' & a & Ea).
  rewrite Ea in H2 |- *. rewrite last_last in H2.
  rewrite rev_app_distr. cbn [rev app].
  rewrite drop_ws_nonspace by exact H2.
  change (a :: rev l') with (rev [a] ++ rev l')%list.
  rewrite <- rev_app_distr, rev_involutive. reflexivity.
Qed.

Lemma collapse_single (l : list ascii) (b : bool) :
  single_spaces (collapse_ws_l l b) b = true.
Proof.
  revert b. induction l as [|c l IH]; intros b; [reflexivity|]. cbn [collapse_ws_l].
  destruct (is_js_space c) eqn:E; [destruct b|]; cbn [single_spaces].
  - apply IH.
  - reflexivity || (cbn; apply IH).
  - rewrite E. apply IH.
Qed.

Lemma collapse_on_single (l : list ascii) (b : bool) :
  single_spaces l b = true -> collapse_ws_l l b = l.
Proof.
  revert b. induction l as [|c l IH]; intros b H; [reflexivity|].
  cbn [single_spaces collapse_ws_l] in *.
  destruct (is_js_space c) eqn:E.
  - apply andb_prop in H as [H H3]. apply andb_prop in H as [H1 H2].
    apply Ascii.eqb_eq in H1. subst c. destruct b; [discriminate|].
    f_equal. apply IH. exact H3.
  - f_equal. apply IH. exact H.
Qed.

Lemma collapse_last (l : list ascii) (b : bool) :
  l <> [] -> (forall d, is_js_space (last l d) = false) ->
  collapse_ws_l l b <> [] /\ forall d, is_js_space (last (collapse_ws_l l b) d) = false.
Proof.
  revert b. induction l as [|c l IH]; intros b Hne Hl; [contradiction|].
  destruct l as [|c2 l].
  - specialize (Hl c). cbn in Hl. cbn. rewrite Hl. split; [discriminate|]. intros d. exact Hl.
  - destruct (IH false ltac:(discriminate) Hl) as [Ne1 L1].
    destruct (IH true ltac:(discriminate) Hl) as [Ne2 L2].
    cbn [collapse_ws_l]. fold (collapse_ws_l (c2 :: l)).
    destruct (is_js_space c); [destruct b|].
    + split; [exact Ne2 | exact L2].
    + split; [discriminate|]. intros d. rewrite last_cons_nonnil by exact Ne2. apply L2.
    + split; [discriminate|]. intros d. rewrite last_cons_nonnil by exact Ne1. apply L1.
Qed.

Lemma collapse_edges (l : list ascii) :
  edges_ok l = true -> edges_ok (collapse_ws_l l false) = true.
Proof.
  destruct l as [|c t]; intros H; [reflexivity|].
  unfold edges_ok in H. apply andb_prop in H as [H1 H2].
  apply Bool.negb_true_iff in H1, H2.
  assert (Hl : forall d, is_js_space (last (c :: t) d) = false).
  { intros d. rewrite (last_indep _ d c) by discriminate. exact H2. }
  destruct (collapse_last (c :: t) false ltac:(discriminate) Hl) as [_ Hl2].
  revert Hl2. cbn [collapse_ws_l]. rewrite H1. intros Hl2.
  unfold edges_ok. rewrite H1, Hl2. reflexivity.
Qed.

Lemma collapse_nil (l : list ascii) : collapse_ws_l l false = [] -> l = [].
Proof.
  destruct l as [|c t]; [reflexivity|]. cbn. destruct (is_js_space c); discriminate.
Qed.

Lemma L_sanitize (s : string) :
  list_ascii_of_string (sanitize s) =
  collapse_ws_l (rev (drop_ws (rev (drop_ws (list_ascii_of_string s))))) false.
Proof. unfold sanitize. rewrite L_collapse, L_trim. reflexivity. Qed.

End StrFacts.

(** ** NotesModel *)

Import StrFacts.

Lemma sanitize_fixed (s : string) : normalized_note s = true -> sanitize s = s.
Proof.
  intros H. unfold normalized_note in H.
  apply andb_prop in H as [H H3]. apply andb_prop in H as [_ H2].
  apply L_inj. rewrite L_sanitize, trim_on_edges_ok by exact H2.
  apply collapse_on_single. exact H3.
Qed.

Lemma sanitize_normalized (s : string) :
  sanitize s <> "" -> normalized_note (sanitize s) = true.
Proof.
  intros Hne. unfold normalized_note.
  rewrite L_sanitize, collapse_edges, collapse_single by apply trim_edges.
  destruct (sanitize s); [contradiction | reflexivity].
Qed.

Lemma sanitize_blank_iff (s : string) : sanitize s = "" <-> trim s = "".
Proof.
  rewrite <- L_nil, <- (L_nil (trim s)), L_sanitize, L_trim. split.
  - apply collapse_nil.
  - intros H. rewrite H. reflexivity.
Qed.

(** X1: [#sanitize] yields the empty string or a normalized note (no
    whitespace at either end, whitespace only as single spaces), it leaves
    a normalized note unchanged, and it is idempotent. *)
Theorem sanitize_normal_form (s : string) :
  (sanitize s = "" \/ normalized_note (sanitize s) = true) /\
  (normalized_note s = true -> sanitize s = s) /\
  sanitize (sanitize s) = sanitize s.
Proof.
  assert (H : sanitize s = "" \/ normalized_note (sanitize s) = true).
  { destruct (string_dec (sanitize s) "") as [E|E]; [left; exact E|right].
    apply sanitize_normalized, E. }
  split; [exact H|]. split; [apply sanitize_fixed|].
  destruct H as [E|E]; [rewrite E; reflexivity | apply sanitize_fixed, E].
Qed.

Lemma Forall_firstn_skipn {A : Type} (P : A -> Prop) (l : list A) (n m : nat) :
  Forall P l -> Forall P (firstn n l ++ skipn m l).
Proof.
  intros H. apply Forall_app. split.
  - pose proof H as H'. rewrite <- (firstn_skipn n l) in H'.
    apply Forall_app in H'. apply H'.
  - pose proof H as H'. rewrite <- (firstn_skipn m l) in H'.
    apply Forall_app in H'. apply H'.
Qed.

Lemma js_map_sanitize (nts : Q -> string) (items : list json) (l : list string) :
  js_map (sanitize_json nts) items = Some l -> Forall (fun x => exists t, x = sanitize t) l.
Proof.
  revert l. induction items as [|j items IH]; intros l H; cbn [js_map] in H.
  - injection H as <-. constructor.
  - destruct (sanitize_json nts j) as [y|] eqn:Ey; [|discriminate].
    destruct (js_map (sanitize_json nts) items) as [ys|]; [|discriminate].
    injection H as <-. constructor; [|apply IH; reflexivity].
    unfold sanitize_json in Ey.
    destruct j;
      try (match type of Ey with context [json_String ?n ?x] =>
             destruct (json_String n x); [|discriminate] end);
      injection Ey as <-; eexists; reflexivity.
Qed.

Lemma created_notes_normalized (nts : Q -> string) (items : list json) (l : list string) :
  js_map (sanitize_json nts) items = Some l ->
  Forall (fun n => normalized_note n = true) (filter nonempty l).
Proof.
  intros H. pose proof (js_map_sanitize nts items l H) as Hs.
  apply Forall_forall. intros n Hin. apply filter_In in Hin as [Hin Hne].
  rewrite Forall_forall in Hs. destruct (Hs n Hin) as [t ->].
  apply sanitize_normalized. intros E. rewrite E in Hne. discriminate.
Qed.

Lemma notes_op_normalized (op : NotesOp) (notes : list string) :
  Forall (fun n => normalized_note n = true) notes ->
  Forall (fun n => normalized_note n = true) (notes_op op notes).
Proof.
  intros H. destruct op as [t | i |]; cbn [notes_op].
  - unfold NotesModel_add. destruct (nonempty (sanitize t)) eqn:E; cbn; [|exact H].
    apply Forall_app. split; [exact H|]. constructor; [|constructor].
    apply sanitize_normalized. intros E2. rewrite E2 in E. discriminate.
  - unfold NotesModel_removeAt. destruct i as [q| |]; cbn [snd]; try exact H.
    destruct (Number_isInteger q); cbn [snd]; [|exact H].
    destruct (_ || _); cbn [snd]; [exact H|]. apply Forall_firstn_skipn, H.
  - constructor.
Qed.

(** X2: every note a NotesModel holds is normalized: after the
    constructor (whatever JSON array it gets) and any sequence of [add],
    [removeAt] and [clear]. *)
Theorem notes_always_normalized (nts : Q -> string) (initialNotes : json)
    (notes0 : list string) (ops : list NotesOp) :
  NotesModel_create nts initialNotes = Some notes0 ->
  Forall (fun n => normalized_note n = true) (notes_run ops notes0).
Proof.
  intros Hc. destruct initialNotes; try discriminate. cbn [NotesModel_create] in Hc.
  destruct (js_map (sanitize_json nts) items) as [l0|] eqn:E; [|discriminate].
  injection Hc as <-.
  unfold notes_run. generalize (created_notes_normalized nts items l0 E).
  generalize (filter nonempty l0) as l.
  induction ops as [|op ops IH]; intros l Hl; [exact Hl|].
  cbn [fold_left]. apply IH. apply notes_op_normalized, Hl.
Qed.

Lemma notes_always_normalized_witness :
  Forall (fun n => normalized_note n = true)
    (notes_run [OpAdd "  buy   milk "; OpAdd "	"; OpRemoveAt (JFinite 0%Q)]
       ["x"; "y z"]).
Proof.
  apply (notes_always_normalized (fun _ => "0")
           (JArray [JString " x "; JString "y   z"; JNull]) ["x"; "y z"]).
  reflexivity.
Defined.

Lemma isInteger_inject_Z (i : Z) : Number_isInteger (inject_Z i) = true.
Proof. unfold Number_isInteger. cbn [Qnum Qden inject_Z]. rewrite Z.rem_1_r. reflexivity. Qed.

(** X3: [removeAt] refuses (returns false, list unchanged) an index that
    is not an integer (NaN, an infinity, a fraction) or is negative or
    past the end; for [0 <= i < length] it returns true and removes
    exactly the [i]-th note, the later ones moving down by one. *)
Theorem removeAt_bounds (notes : list string) :
  (forall v, jsnum_isInteger v = false -> NotesModel_removeAt v notes = (false, notes)) /\
  (forall i : Z, (i < 0 \/ Z.of_nat (List.length notes) <= i)%Z ->
     NotesModel_removeAt (JFinite (inject_Z i)) notes = (false, notes)) /\
  (forall i : nat, (i < List.length notes)%nat ->
     exists rest,
       NotesModel_removeAt (JFinite (inject_Z (Z.of_nat i))) notes = (true, rest) /\
       List.length rest = (List.length notes - 1)%nat /\
       forall j, nth_error rest j = nth_error notes (if Nat.ltb j i then j else S j)).
Proof.
  split; [|split].
  - intros v Hv. unfold NotesModel_removeAt.
    destruct v as [q| |]; try reflexivity. cbn [jsnum_isInteger] in Hv. rewrite Hv. reflexivity.
  - intros i Hi. unfold NotesModel_removeAt. rewrite isInteger_inject_Z.
    cbn [Qnum Qden inject_Z]. rewrite Z.div_1_r.
    replace ((i <? 0)%Z || (i >=? Z.of_nat (List.length notes))%Z) with true; [reflexivity|].
    symmetry. apply Bool.orb_true_iff. destruct Hi as [Hi|Hi]; [left; lia | right].
    apply Z.geb_le. lia.
  - intros i Hi. unfold NotesModel_removeAt. rewrite isInteger_inject_Z.
    cbn [Qnum Qden inject_Z]. rewrite Z.div_1_r, Nat2Z.id.
    replace ((Z.of_nat i <? 0)%Z || (Z.of_nat i >=? Z.of_nat (List.length notes))%Z)
      with false.
    2:{ symmetry. apply Bool.orb_false_iff. split; [apply Z.ltb_ge; lia|].
        rewrite Z.geb_leb. apply Z.leb_gt. lia. }
    eexists. split; [reflexivity|]. split.
    + rewrite length_app, length_firstn, length_skipn. lia.
    + intros j. destruct (Nat.ltb_spec j i) as [Hj|Hj].
      * rewrite nth_error_app1 by (rewrite length_firstn; lia).
        rewrite nth_error_firstn. destruct (Nat.ltb_spec j i); [reflexivity|lia].
      * rewrite nth_error_app2 by (rewrite length_firstn; lia).
        rewrite length_firstn, nth_error_skipn. f_equal. lia.
Qed.

Lemma removeAt_bounds_witness :
  NotesModel_removeAt (JFinite (inject_Z 2)) ["a"; "b"] = (false, ["a"; "b"]) /\
  NotesModel_removeAt JNaN ["a"; "b"] = (false, ["a"; "b"]).
Proof.
  split.
  - apply (proj1 (proj2 (removeAt_bounds ["a"; "b"]))). right. cbn. lia.
  - apply (proj1 (removeAt_bounds ["a"; "b"])). reflexivity.
Defined.

(** ** bootstrap and the controller *)

Lemma bootstrap_eq (nts : Q -> string) (cslot nslot : slot) (full : bool) :
  bootstrap nts cslot nslot full =
  match CounterModel_create (loaded_counter_value cslot),
        NotesModel_create nts (loaded_notes_value nslot) with
  | Some c, Some n =>
      Some {| app_counter := c; app_notes := n; counter_slot := cslot;
              notes_slot := nslot; shown_counter := c; shown_notes := n;
              shown_status := StReady; storage_full := full |}
  | _, _ => None
  end.
Proof. reflexivity. Qed.

Lemma loaded_counter_integer (cslot : slot) :
  exists c, CounterModel_create (loaded_counter_value cslot) = Some c.
Proof.
  unfold CounterModel_create.
  assert (H : Number_isInteger (loaded_counter_value cslot) = true).
  { unfold loaded_counter_value.
    destruct (_ && _); [|reflexivity].
    destruct (json_get _ "value") as [[| | q | | |]|]; try reflexivity.
    destruct (Number_isInteger q) eqn:E; [exact E | reflexivity]. }
  rewrite H. eexists. reflexivity.
Qed.

Lemma loaded_notes_array (nslot : slot) :
  exists items, loaded_notes_value nslot = JArray items.
Proof.
  unfold loaded_notes_value. destruct (_ && _); [|eexists; reflexivity].
  destruct (json_get _ "notes") as [[| | | | items |]|]; eexists; reflexivity.
Qed.

Lemma json_String_array_one (nts : Q -> string) (x : json) :
  json_String nts (JArray [x]) = match x with JNull => Some "" | _ => json_String nts x end.
Proof. reflexivity. Qed.

Lemma json_String_array_cons (nts : Q -> string) (x y : json) (r : list json) :
  json_String nts (JArray (x :: y :: r)) =
  match (match x with JNull => Some "" | _ => json_String nts x end),
        json_String nts (JArray (y :: r)) with
  | Some a, Some b => Some (a ++ "," ++ b)
  | _, _ => None
  end.
Proof. reflexivity. Qed.

Lemma json_string_throws_cons (x : json) (r : list json) :
  json_string_throws (JArray (x :: r)) = json_string_throws x || json_string_throws (JArray r).
Proof. reflexivity. Qed.

Lemma json_String_none (nts : Q -> string) (j : json) :
  json_String nts j = None <-> json_string_throws j = true.
Proof.
  induction j as [| b | q | str | items Hf | fields] using json_ind_nested.
  - split; discriminate.
  - destruct b; split; discriminate.
  - split; discriminate.
  - split; discriminate.
  - induction Hf as [|x rest Hx Hrest IH]; [split; discriminate|].
    assert (Ex : (match x with JNull => Some "" | _ => json_String nts x end) = None <->
                 json_string_throws x = true).
    { destruct x; try exact Hx. split; discriminate. }
    rewrite json_string_throws_cons, Bool.orb_true_iff, <- Ex, <- IH.
    destruct rest as [|y r].
    + rewrite json_String_array_one. split; [intros H; left; exact H|].
      intros [H|H]; [exact H | discriminate].
    + rewrite json_String_array_cons.
      destruct (match x with JNull => Some "" | _ => json_String nts x end),
        (json_String nts (JArray (y :: r)));
        (split; [intros H | intros [H|H]]); try congruence; auto.
  - cbn [json_String json_string_throws].
    destruct (existsb _ fields); split; congruence.
Qed.

Lemma sanitize_json_none (nts : Q -> string) (j : json) :
  sanitize_json nts j = None <-> json_string_throws j = true.
Proof.
  pose proof (json_String_none nts j) as H. unfold sanitize_json.
  destruct j; [split; [discriminate | intros E; apply H in E; discriminate] | ..];
    revert H;
    match goal with
    | |- context [json_String ?n ?x] =>
        destruct (json_String n x); intros H;
          [split; [discriminate | intros E; apply H in E; discriminate] | exact H]
    end.
Qed.

Lemma js_map_sanitize_none (nts : Q -> string) (items : list json) :
  js_map (sanitize_json nts) items = None <-> existsb json_string_throws items = true.
Proof.
  induction items as [|j items IH]; cbn [js_map existsb]; [split; discriminate|].
  destruct (sanitize_json nts j) eqn:E.
  - destruct (json_string_throws j) eqn:T.
    + apply (proj2 (sanitize_json_none nts j)) in T. congruence.
    + cbn [orb]. rewrite <- IH. destruct (js_map (sanitize_json nts) items); split; congruence.
  - apply sanitize_json_none in E. rewrite E. cbn [orb]. split; reflexivity.
Qed.

(** X4: [bootstrap] fails (a [TypeError] from the NotesModel constructor)
    exactly when the stored notes array holds an object with an own
    "toString" key, directly or inside a nested array; the counter never
    makes it fail. When it succeeds, the notes it loads are normalized, a
    counter key that is missing, unreadable or not JSON gives 0, and the
    first render shows the models with status "Ready". A notes key that is
    missing, unreadable or not JSON always loads, with no notes. *)
Theorem bootstrap_outcome (nts : Q -> string) (cslot nslot : slot) (full : bool) :
  (bootstrap nts cslot nslot full = None <->
   exists items, loaded_notes_value nslot = JArray items /\
                 existsb json_string_throws items = true) /\
  (forall a, bootstrap nts cslot nslot full = Some a ->
     Forall (fun n => normalized_note n = true) (app_notes a) /\
     (match cslot with Stored _ => True | _ => app_counter a = 0%Z end) /\
     shown_counter a = app_counter a /\ shown_notes a = app_notes a /\
     shown_status a = StReady) /\
  (match nslot with
   | Stored _ => True
   | _ => exists a, bootstrap nts cslot nslot full = Some a /\ app_notes a = []
   end).
Proof.
  rewrite bootstrap_eq.
  destruct (loaded_counter_integer cslot) as [c Hc].
  destruct (loaded_notes_array nslot) as [items Hi].
  rewrite Hc, Hi. cbn [NotesModel_create].
  assert (Hnil : match nslot with Stored _ => True | _ => items = [] end).
  { destruct nslot; try exact I; unfold loaded_notes_value in Hi; cbn in Hi;
      injection Hi as <-; reflexivity. }
  destruct (js_map (sanitize_json nts) items) as [l|] eqn:E.
  - split; [|split].
    + split; [discriminate|]. intros (items' & Heq & Hex). injection Heq as <-.
      apply (proj2 (js_map_sanitize_none nts items)) in Hex. congruence.
    + intros a Ha. injection Ha as <-.
      cbn [app_notes app_counter shown_counter shown_notes shown_status].
      split; [apply (created_notes_normalized nts items l E)|].
      split; [|repeat split].
      destruct cslot; try exact I; unfold loaded_counter_value in Hc; cbn in Hc;
        injection Hc as <-; reflexivity.
    + destruct nslot; try exact I; subst items; cbn in E; injection E as <-;
        eexists; split; reflexivity.
  - split; [|split].
    + split; [intros _; exists items; split; [reflexivity | apply (proj1 (js_map_sanitize_none nts items)), E]|].
      reflexivity.
    + discriminate.
    + destruct nslot; try exact I; subst items; discriminate.
Qed.

Lemma bootstrap_outcome_witness :
  bootstrap (fun _ => "0") Missing
    (Stored (JObject [("notes", JArray [JString "a"; JArray [JObject [("toString", JNumber 0)]]])]))
    false = None.
Proof.
  apply (proj2 (proj1 (bootstrap_outcome (fun _ => "0") Missing
    (Stored (JObject [("notes", JArray [JString "a"; JArray [JObject [("toString", JNumber 0)]]])]))
    false))).
  eexists. split; [reflexivity|]. vm_compute. reflexivity.
Defined.

Lemma normalized_nonempty (s : string) : normalized_note s = true -> nonempty s = true.
Proof. unfold normalized_note. intros H. apply andb_prop in H as [H _]. apply andb_prop in H as [H _]. exact H. Qed.

Lemma NotesModel_create_normalized (nts : Q -> string) (j : json) (n : list string) :
  NotesModel_create nts j = Some n -> Forall (fun x => normalized_note x = true) n.
Proof.
  destruct j; cbn [NotesModel_create]; try discriminate.
  destruct (js_map (sanitize_json nts) items) as [l|] eqn:E; [|discriminate].
  intros H. injection H as <-. exact (created_notes_normalized nts items l E).
Qed.

Lemma js_map_sanitize_strings (nts : Q -> string) (l : list string) :
  js_map (sanitize_json nts) (map JString l) = Some (map sanitize l).
Proof.
  induction l as [|x l IH]; [reflexivity|]. cbn [map js_map].
  change (sanitize_json nts (JString x)) with (Some (sanitize x)). rewrite IH. reflexivity.
Qed.

Lemma counter_reload (v : Z) :
  CounterModel_create (loaded_counter_value (Store_save (JObject [("value", JNumber (inject_Z v))])))
  = Some v.
Proof.
  unfold loaded_counter_value, Store_load, Store_save, json_get. cbn [rev app find fst String.eqb Ascii.eqb Bool.eqb].
  cbn [json_truthy json_is_object andb]. rewrite isInteger_inject_Z.
  unfold CounterModel_create. rewrite isInteger_inject_Z. cbn [Qnum Qden inject_Z].
  rewrite Z.div_1_r. reflexivity.
Qed.

Lemma notes_reload (nts : Q -> string) (notes : list string) :
  Forall (fun x => normalized_note x = true) notes ->
  NotesModel_create nts (loaded_notes_value (Store_save (JObject [("notes", JArray (map JString notes))])))
  = Some notes.
Proof.
  intros H. unfold loaded_notes_value, Store_load, Store_save, json_get.
  cbn [rev app find fst snd String.eqb Ascii.eqb Bool.eqb json_truthy json_is_object andb NotesModel_create].
  rewrite js_map_sanitize_strings.
  f_equal. induction H as [|x l Hx _ IH]; [reflexivity|].
  cbn [map filter].
  rewrite sanitize_fixed by exact Hx. rewrite normalized_nonempty by exact Hx.
  rewrite IH. reflexivity.
Qed.

Lemma bootstrap_inv (nts : Q -> string) (cslot nslot : slot) (a : App) :
  bootstrap nts cslot nslot false = Some a -> app_inv nts a.
Proof.
  rewrite bootstrap_eq.
  destruct (CounterModel_create _) as [c|] eqn:Hc; [|discriminate].
  destruct (NotesModel_create _ _) as [n|] eqn:Hn; [|discriminate].
  intros H. injection H as <-. unfold app_inv; cbn.
  repeat split; try assumption. eapply NotesModel_create_normalized; exact Hn.
Qed.

Lemma save_and_render_inv (nts : Q -> string) (notes : list string) (st : StatusText) (a : App) :
  app_inv nts a -> Forall (fun n => normalized_note n = true) notes ->
  app_inv nts (save_and_render_notes notes st a).
Proof.
  intros (Hf & Hnorm & Hc & Hn & Hsc & Hsn) Hnotes.
  unfold save_and_render_notes. rewrite Hf. unfold app_inv; cbn [storage_full app_notes
    counter_slot notes_slot app_counter shown_counter shown_notes].
  repeat split; try assumption. apply notes_reload. exact Hnotes.
Qed.

Lemma app_step_inv (nts : Q -> string) (e : AppEvent) (a : App) :
  app_inv nts a -> app_inv nts (app_step e a).
Proof.
  intros Hinv. pose proof Hinv as (Hf & Hnorm & Hc & Hn & Hsc & Hsn).
  destruct e as [kind | text | idx]; cbn [app_step].
  - unfold updateCounter. rewrite Hf. unfold app_inv; cbn [storage_full app_notes
      counter_slot notes_slot app_counter shown_counter shown_notes].
    repeat split; try assumption. apply counter_reload.
  - unfold addNote. destruct (NotesModel_add text (app_notes a)) as [[v|] notes] eqn:E.
    + apply save_and_render_inv; [exact Hinv|].
      replace notes with (notes_op (OpAdd text) (app_notes a))
        by (cbn [notes_op]; rewrite E; reflexivity).
      apply notes_op_normalized. exact Hnorm.
    + unfold app_inv; cbn [storage_full app_notes counter_slot notes_slot app_counter
        shown_counter shown_notes]. repeat split; assumption.
  - destruct (jsnum_isInteger idx); [|exact Hinv].
    unfold removeNote. destruct (NotesModel_removeAt idx (app_notes a)) as [[|] notes] eqn:E;
      [|exact Hinv].
    apply save_and_render_inv; [exact Hinv|].
    replace notes with (notes_op (OpRemoveAt idx) (app_notes a))
      by (cbn [notes_op]; rewrite E; reflexivity).
    apply notes_op_normalized. exact Hnorm.
Qed.

Lemma app_run_inv (nts : Q -> string) (es : list AppEvent) (a : App) :
  app_inv nts a -> app_inv nts (app_run es a).
Proof.
  unfold app_run. revert a. induction es as [|e es IH]; intros a H; [exact H|].
  cbn [fold_left]. apply IH. apply app_step_inv. exact H.
Qed.

(** X5: after any sequence of counter clicks, note submissions and
    remove clicks, with storage accepting the writes, reloading the page
    ([bootstrap] on what the two keys now hold) rebuilds the same counter
    value and the same list of notes. *)
Theorem reload_roundtrip (nts : Q -> string) (cslot nslot : slot) (a0 : App)
  (es : list AppEvent) :
  bootstrap nts cslot nslot false = Some a0 ->
  exists a',
    bootstrap nts (counter_slot (app_run es a0)) (notes_slot (app_run es a0)) false = Some a' /\
    app_counter a' = app_counter (app_run es a0) /\
    app_notes a' = app_notes (app_run es a0).
Proof.
  intros H0. pose proof (app_run_inv nts es a0 (bootstrap_inv nts cslot nslot a0 H0))
    as (_ & _ & Hc & Hn & _).
  rewrite bootstrap_eq, Hc, Hn. eexists. split; [reflexivity|]. split; reflexivity.
Qed.

(** X6: while storage accepts writes, the counter and the notes list on
    screen are always those of the models, and every note the NotesModel
    holds, hence every note on screen, is normalized (trimmed, non-empty,
    single spaces). *)
Theorem ui_in_sync (nts : Q -> string) (cslot nslot : slot) (a0 : App)
  (es : list AppEvent) :
  bootstrap nts cslot nslot false = Some a0 ->
  shown_counter (app_run es a0) = app_counter (app_run es a0) /\
  shown_notes (app_run es a0) = app_notes (app_run es a0) /\
  Forall (fun n => normalized_note n = true) (app_notes (app_run es a0)).
Proof.
  intros H0. pose proof (app_run_inv nts es a0 (bootstrap_inv nts cslot nslot a0 H0))
    as (_ & Hnorm & _ & _ & Hsc & Hsn).
  repeat split; assumption.
Qed.

Lemma reload_roundtrip_witness :
  bootstrap (fun _ => "0") (Stored (JObject [("value", JNumber 3)]))
    (Stored (JObject [("notes", JArray [JString "  buy   milk "; JNumber 7; JNull])])) false
  = Some {| app_counter := 3; app_notes := ["buy milk"; "0"];
            counter_slot := Stored (JObject [("value", JNumber 3)]);
            notes_slot := Stored (JObject [("notes", JArray [JString "  buy   milk "; JNumber 7; JNull])]);
            shown_counter := 3; shown_notes := ["buy milk"; "0"];
            shown_status := StReady; storage_full := false |} /\
  exists a',
    bootstrap (fun _ => "0")
      (counter_slot (app_run [CounterClick Inc; NoteSubmit " eggs "; RemoveClick (JFinite 0)]
        {| app_counter := 3; app_notes := ["buy milk"; "0"];
           counter_slot := Stored (JObject [("value", JNumber 3)]);
           notes_slot := Stored (JObject [("notes", JArray [JString "  buy   milk "; JNumber 7; JNull])]);
           shown_counter := 3; shown_notes := ["buy milk"; "0"];
           shown_status := StReady; storage_full := false |}))
      (notes_slot (app_run [CounterClick Inc; NoteSubmit " eggs "; RemoveClick (JFinite 0)]
        {| app_counter := 3; app_notes := ["buy milk"; "0"];
           counter_slot := Stored (JObject [("value", JNumber 3)]);
           notes_slot := Stored (JObject [("notes", JArray [JString "  buy   milk "; JNumber 7; JNull])]);
           shown_counter := 3; shown_notes := ["buy milk"; "0"];
           shown_status := StReady; storage_full := false |})) false = Some a' /\
    app_counter a' = 4%Z /\ app_notes a' = ["0"; "eggs"].
Proof.
  assert (H0 : bootstrap (fun _ => "0") (Stored (JObject [("value", JNumber 3)]))
    (Stored (JObject [("notes", JArray [JString "  buy   milk "; JNumber 7; JNull])])) false
  = Some {| app_counter := 3; app_notes := ["buy milk"; "0"];
            counter_slot := Stored (JObject [("value", JNumber 3)]);
            notes_slot := Stored (JObject [("notes", JArray [JString "  buy   milk "; JNumber 7; JNull])]);
            shown_counter := 3; shown_notes := ["buy milk"; "0"];
            shown_status := StReady; storage_full := false |}) by (vm_compute; reflexivity).
  split; [exact H0|].
  destruct (reload_roundtrip (fun _ => "0") _ _ _
              [CounterClick Inc; NoteSubmit " eggs "; RemoveClick (JFinite 0)] H0)
    as (a' & Hb & Hc & Hn).
  exists a'. split; [exact Hb|]. rewrite Hc, Hn. split; vm_compute; reflexivity.
Defined.

Lemma ui_in_sync_witness :
  bootstrap (fun _ => "0") Unparsable Missing false
  = Some {| app_counter := 0; app_notes := []; counter_slot := Unparsable;
            notes_slot := Missing; shown_counter := 0; shown_notes := [];
            shown_status := StReady; storage_full := false |} /\
  shown_notes (app_run [NoteSubmit "a"; CounterClick Dec]
    {| app_counter := 0; app_notes := []; counter_slot := Unparsable;
       notes_slot := Missing; shown_counter := 0; shown_notes := [];
       shown_status := StReady; storage_full := false |})
  = app_notes (app_run [NoteSubmit "a"; CounterClick Dec]
    {| app_counter := 0; app_notes := []; counter_slot := Unparsable;
       notes_slot := Missing; shown_counter := 0; shown_notes := [];
       shown_status := StReady; storage_full := false |}).
Proof.
  assert (H0 : bootstrap (fun _ => "0") Unparsable Missing false
  = Some {| app_counter := 0; app_notes := []; counter_slot := Unparsable;
            notes_slot := Missing; shown_counter := 0; shown_notes := [];
            shown_status := StReady; storage_full := false |}) by reflexivity.
  split; [exact H0|].
  exact (proj1 (proj2 (ui_in_sync (fun _ => "0") _ _ _ [NoteSubmit "a"; CounterClick Dec] H0))).
Defined.

(** The counter and the notes list after a handler depend only on the
    counter and the notes list before it, not on storage or screen. *)
Lemma app_step_models (e : AppEvent) (a b : App) :
  app_counter a = app_counter b -> app_notes a = app_notes b ->
  app_counter (app_step e a) = app_counter (app_step e b) /\
  app_notes (app_step e a) = app_notes (app_step e b).
Proof.
  intros Hc Hn. destruct e as [kind | text | idx]; cbn [app_step].
  - unfold updateCounter. rewrite Hc.
    destruct (storage_full a), (storage_full b); cbn; auto.
  - unfold addNote. rewrite Hn.
    destruct (NotesModel_add text (app_notes b)) as [[v|] notes].
    + unfold save_and_render_notes.
      destruct (storage_full a), (storage_full b); cbn; auto.
    + cbn. auto.
  - destruct (jsnum_isInteger idx); [|auto].
    unfold removeNote. rewrite Hn.
    destruct (NotesModel_removeAt idx (app_notes b)) as [[|] notes]; [|auto].
    unfold save_and_render_notes.
    destruct (storage_full a), (storage_full b); cbn; auto.
Qed.

Lemma app_run_models (es : list AppEvent) (a b : App) :
  app_counter a = app_counter b -> app_notes a = app_notes b ->
  app_counter (app_run es a) = app_counter (app_run es b) /\
  app_notes (app_run es a) = app_notes (app_run es b).
Proof.
  unfold app_run. revert a b.
  induction es as [|e es IH]; intros a b Hc Hn; [cbn; auto|].
  cbn [fold_left]. destruct (app_step_models e a b Hc Hn) as [Hc' Hn'].
  exact (IH _ _ Hc' Hn').
Qed.

(** X7: when every [localStorage.setItem] throws, the handlers still
    change the models, exactly as they would with working storage, but
    never change what is stored under the two keys or what the screen
    shows (the save comes before the render and its exception ends the
    handler). *)
Theorem storage_failure_freezes_view (es : list AppEvent) (a : App) :
  storage_full a = true ->
  app_counter (app_run es a) = app_counter (app_run es (storage_writable a)) /\
  app_notes (app_run es a) = app_notes (app_run es (storage_writable a)) /\
  storage_full (app_run es a) = true /\
  counter_slot (app_run es a) = counter_slot a /\
  notes_slot (app_run es a) = notes_slot a /\
  shown_counter (app_run es a) = shown_counter a /\
  shown_notes (app_run es a) = shown_notes a /\
  (shown_status (app_run es a) = shown_status a \/
   shown_status (app_run es a) = StNoteEmpty).
Proof.
  unfold app_run. revert a.
  assert (Hstep : forall e a, storage_full a = true ->
    storage_full (app_step e a) = true /\
    counter_slot (app_step e a) = counter_slot a /\
    notes_slot (app_step e a) = notes_slot a /\
    shown_counter (app_step e a) = shown_counter a /\
    shown_notes (app_step e a) = shown_notes a /\
    (shown_status (app_step e a) = shown_status a \/
     shown_status (app_step e a) = StNoteEmpty)).
  { intros e a Hf. destruct e as [kind | text | idx]; cbn [app_step].
    - unfold updateCounter. rewrite Hf. cbn. auto 7.
    - unfold addNote. destruct (NotesModel_add text (app_notes a)) as [[v|] notes].
      + unfold save_and_render_notes. rewrite Hf. cbn. auto 7.
      + cbn. auto 7.
    - destruct (jsnum_isInteger idx); [|auto 7].
      unfold removeNote. destruct (NotesModel_removeAt idx (app_notes a)) as [[|] notes];
        [|auto 7].
      unfold save_and_render_notes. rewrite Hf. cbn. auto 7. }
  intros a Hf.
  pose proof (app_run_models es a (storage_writable a) eq_refl eq_refl) as [Mc Mn].
  unfold app_run in Mc, Mn. rewrite Mc, Mn. split; [reflexivity|]. split; [reflexivity|].
  clear Mc Mn. revert a Hf.
  induction es as [|e es IH]; intros a Hf; [cbn; auto 7|].
  cbn [fold_left].
  destruct (Hstep e a Hf) as (Hf' & Hc & Hn & Hsc & Hsn & Hst).
  destruct (IH (app_step e a) Hf') as (Hf2 & Hc2 & Hn2 & Hsc2 & Hsn2 & Hst2).
  rewrite Hc2, Hn2, Hsc2, Hsn2, Hc, Hn, Hsc, Hsn.
  repeat split; try assumption.
  destruct Hst2 as [E|E]; [rewrite E; exact Hst | right; exact E].
Qed.

(** X8: events the controller ignores.  Submitting a note that is empty
    once trimmed only sets the status "Note was empty"; a remove click
    whose index is not an integer, or is an integer outside the list,
    changes nothing at all. *)
Theorem ignored_events (a : App) :
  (forall text, trim text = "" ->
     app_step (NoteSubmit text) a =
     {| app_counter := app_counter a; app_notes := app_notes a;
        counter_slot := counter_slot a; notes_slot := notes_slot a;
        shown_counter := shown_counter a; shown_notes := shown_notes a;
        shown_status := StNoteEmpty; storage_full := storage_full a |}) /\
  (forall idx, jsnum_isInteger idx = false -> app_step (RemoveClick idx) a = a) /\
  (forall i : Z, (i < 0 \/ Z.of_nat (List.length (app_notes a)) <= i)%Z ->
     app_step (RemoveClick (JFinite (inject_Z i))) a = a).
Proof.
  split; [|split].
  - intros text Ht. cbn [app_step]. unfold addNote, NotesModel_add.
    apply sanitize_blank_iff in Ht. rewrite Ht. reflexivity.
  - intros idx Hi. cbn [app_step]. rewrite Hi. reflexivity.
  - intros i Hi. cbn [app_step jsnum_isInteger]. rewrite isInteger_inject_Z.
    unfold removeNote, NotesModel_removeAt. rewrite isInteger_inject_Z.
    cbn [Qnum Qden inject_Z]. rewrite Z.div_1_r.
    replace ((i <? 0)%Z || (i >=? Z.of_nat (List.length (app_notes a)))%Z) with true;
      [reflexivity|].
    symmetry. apply Bool.orb_true_iff. destruct Hi as [Hi|Hi]; [left; lia | right].
    apply Z.geb_le. lia.
Qed.

Lemma storage_failure_freezes_view_witness :
  app_counter (app_run [CounterClick Inc; NoteSubmit "x"]
    {| app_counter := 1; app_notes := []; counter_slot := Missing;
       notes_slot := Missing; shown_counter := 1; shown_notes := [];
       shown_status := StReady; storage_full := true |}) = 2%Z /\
  counter_slot (app_run [CounterClick Inc; NoteSubmit "x"]
    {| app_counter := 1; app_notes := []; counter_slot := Missing;
       notes_slot := Missing; shown_counter := 1; shown_notes := [];
       shown_status := StReady; storage_full := true |}) = Missing.
Proof.
  split; [reflexivity|].
  exact (proj1 (proj2 (proj2 (proj2 (storage_failure_freezes_view
    [CounterClick Inc; NoteSubmit "x"]
    {| app_counter := 1; app_notes := []; counter_slot := Missing;
       notes_slot := Missing; shown_counter := 1; shown_notes := [];
       shown_status := StReady; storage_full := true |} eq_refl))))).
Defined.

Lemma ignored_events_witness :
  app_step (RemoveClick (JFinite (inject_Z 5)))
    {| app_counter := 1; app_notes := ["a"]; counter_slot := Missing;
       notes_slot := Missing; shown_counter := 1; shown_notes := ["a"];
       shown_status := StReady; storage_full := false |} =
    {| app_counter := 1; app_notes := ["a"]; counter_slot := Missing;
       notes_slot := Missing; shown_counter := 1; shown_notes := ["a"];
       shown_status := StReady; storage_full := false |}.
Proof.
  apply (proj2 (proj2 (ignored_events
    {| app_counter := 1; app_notes := ["a"]; counter_slot := Missing;
       notes_slot := Missing; shown_counter := 1; shown_notes := ["a"];
       shown_status := StReady; storage_full := false |}))).
  right. cbn. lia.
Defined.

(** ** Text signals *)

Lemma drop_ws_nil_iff (l : list ascii) :
  drop_ws l = [] <-> Forall (fun c => is_js_space c = true) l.
Proof.
  induction l as [|c l IH]; [split; auto|]. cbn [drop_ws].
  destruct (is_js_space c) eqn:E.
  - rewrite IH. split; [intros H; constructor; assumption | intros H; inversion H; assumption].
  - split; [discriminate | intros H; inversion H; congruence].
Qed.

Lemma trim_blank_iff (s : string) :
  trim s = "" <-> Forall (fun c => is_js_space c = true) (list_ascii_of_string s).
Proof.
  rewrite <- drop_ws_nil_iff, <- L_nil, L_trim.
  destruct (drop_ws_spec (list_ascii_of_string s)) as [E | (c & t & E & Hc)]; rewrite E.
  - split; reflexivity.
  - split; [|discriminate]. intros H. exfalso.
    cbn [rev] in H. apply (f_equal (@rev ascii)) in H. rewrite rev_involutive in H.
    cbn in H. destruct (drop_ws (rev t)) eqn:D.
    + rewrite (drop_ws_app_nil _ _ D) in H. rewrite (drop_ws_nonspace c [] Hc) in H.
      discriminate.
    + rewrite drop_ws_app_cons in H by (rewrite D; discriminate).
      rewrite D in H. destruct (rev (l ++ [c])) eqn:R; [|discriminate].
      apply (f_equal (@List.length ascii)) in R. rewrite length_rev, length_app in R.
      cbn in R. lia.
Qed.

Lemma split_runs_filter_nil (sep : ascii -> bool) (s cur : string) (b : bool) :
  filter nonempty (split_runs_aux sep s cur b) = [] <->
  cur = "" /\ Forall (fun c => sep c = true) (list_ascii_of_string s).
Proof.
  revert cur b. induction s as [|c s IH]; intros cur b.
  - cbn. destruct cur; cbn; split.
    + auto.
    + reflexivity.
    + discriminate.
    + intros [H _]; discriminate.
  - cbn [split_runs_aux list_ascii_of_string]. destruct (sep c) eqn:E; [destruct b|].
    + rewrite IH. split; intros [H1 H2]; split; auto. inversion H2; assumption.
    + cbn [filter]. destruct (nonempty cur) eqn:N.
      * split; [discriminate|]. intros [-> _]. discriminate.
      * apply nonempty_false_iff in N. subst cur. rewrite IH.
        split; intros [_ H2]; split; auto. inversion H2; assumption.
    + rewrite IH. split; intros [H1 H2].
      * destruct cur; discriminate.
      * inversion H2; congruence.
Qed.

Lemma split_runs_count (sep : ascii -> bool) (s cur : string) (b : bool) :
  List.length (filter nonempty (split_runs_aux sep s cur b)) <=
  String.length s + (if nonempty cur then 1 else 0).
Proof.
  revert cur b. induction s as [|c s IH]; intros cur b.
  - cbn. destruct (nonempty cur); cbn; lia.
  - cbn [split_runs_aux String.length]. destruct (sep c); [destruct b|].
    + specialize (IH cur true). lia.
    + cbn [filter]. specialize (IH "" true). cbn [nonempty] in IH.
      destruct (nonempty cur); cbn [List.length]; lia.
    + specialize (IH (cur ++ String c "") false).
      destruct (nonempty (cur ++ String c "")), (nonempty cur); lia.
Qed.

Lemma trim_nonempty (x : string) : nonempty (trim x) = true -> nonempty x = true.
Proof. destruct x; [discriminate | reflexivity]. Qed.

Lemma filter_map_trim_le (l : list string) :
  List.length (filter nonempty (map trim l)) <= List.length (filter nonempty l).
Proof.
  induction l as [|x l IH]; [reflexivity|]. cbn [map filter].
  destruct (nonempty (trim x)) eqn:E.
  - rewrite (trim_nonempty x E). cbn [List.length]. lia.
  - destruct (nonempty x); cbn [List.length]; lia.
Qed.

Lemma sentiment_fold_bounds (ws : list string) (acc : Z) :
  (acc - Z.of_nat (List.length ws) <= fold_left sentiment_step ws acc <=
   acc + Z.of_nat (List.length ws))%Z.
Proof.
  revert acc. induction ws as [|w ws IH]; intros acc; cbn [fold_left List.length].
  - lia.
  - specialize (IH (sentiment_step acc w)).
    assert (acc - 1 <= sentiment_step acc w <= acc + 1)%Z.
    { unfold sentiment_step. destruct (includes positive_words _), (includes negative_words _); lia. }
    lia.
Qed.

(** X9: the four text signals are [text.length], a word count and a
    sentence count that never exceed [text.length], and a sentiment whose
    absolute value never exceeds the word count. *)
Theorem deriveTextSignals_bounds (text : string) :
  exists w sc sent : Z,
    deriveTextSignals text =
      [inject_Z (Z.of_nat (String.length text)); inject_Z w; inject_Z sc; inject_Z sent] /\
    (0 <= w <= Z.of_nat (String.length text))%Z /\
    (0 <= sc <= Z.of_nat (String.length text))%Z /\
    (- w <= sent <= w)%Z.
Proof.
  exists (Z.of_nat (List.length (words_of text))),
         (Z.of_nat (List.length (sentences_of text))),
         (fold_left sentiment_step (words_of text) 0%Z).
  split; [reflexivity|].
  pose proof (split_runs_count is_js_space text "" false) as Hw.
  pose proof (split_runs_count is_sentence_end text "" false) as Hs.
  pose proof (filter_map_trim_le (split_runs is_sentence_end text)) as Ht.
  pose proof (sentiment_fold_bounds (words_of text) 0) as Hm.
  unfold words_of, sentences_of, split_runs in *. cbn [nonempty] in Hw, Hs.
  lia.
Qed.

(** X10: [deriveTextSignals] finds no word exactly when the text is blank
    ([text.trim()] is empty): [submitCalibration] never records a run with
    word count 0. *)
Theorem no_words_iff_blank (text : string) :
  words_of text = [] <-> trim text = "".
Proof.
  unfold words_of, split_runs. rewrite split_runs_filter_nil, trim_blank_iff.
  split; [intros [_ H]; exact H | intros H; split; [reflexivity | exact H]].
Qed.

(** ** Reachable calibrator states *)

Lemma js_array_set_shape (draft : list (option Q)) (i : nat) (v : Q) :
  draft_shape draft -> draft_shape (js_array_set draft i v).
Proof.
  intros (q & rest & -> & Hl). unfold js_array_set.
  destruct (Nat.ltb_spec i (List.length (Some q :: rest))) as [Hi|Hi].
  - destruct i as [|i].
    + exists v, rest. split; [reflexivity | exact Hl].
    + exists q, (firstn i rest ++ Some v :: skipn (S i) rest)%list. split; [reflexivity|].
      cbn [List.length] in Hi.
      rewrite length_app, length_firstn. cbn [List.length]. rewrite length_skipn. lia.
  - exists q, (rest ++ repeat None (i - List.length (Some q :: rest)) ++ [Some v])%list.
    split; [reflexivity|]. rewrite length_app. lia.
Qed.

Lemma Forall_firstn {A : Type} (P : A -> Prop) (n : nat) (l : list A) :
  Forall P l -> Forall P (firstn n l).
Proof.
  revert l. induction n as [|n IH]; intros l H; [constructor|].
  destruct H as [|x l Hx H]; [constructor|]. cbn [firstn]. constructor; [exact Hx | apply IH, H].
Qed.

Lemma calib_step_inv (a : Action) (s : State) : calib_inv s -> calib_inv (step a s).
Proof.
  intros [Hd Hr]. destruct a as [i v | v | now |]; cbn [step].
  - unfold updateSignal. destruct v as [q| |]; cbn [Number_isFinite negb]; try (split; assumption).
    split; cbn [signalsDraft runs]; [apply js_array_set_shape, Hd | exact Hr].
  - split; assumption.
  - destruct (string_dec (trim (rawInput s)) "") as [E|E].
    + rewrite submit_blank_eq by exact E. split; assumption.
    + rewrite submit_nonblank_eq by exact E. split; cbn [signalsDraft runs]; [exact Hd|].
      apply Forall_firstn. constructor; [|exact Hr].
      destruct Hd as (q & rest & Hq & Hl).
      exists (rawInput s), q, rest. unfold built_run; cbn [derived signals metrics].
      rewrite Hq. repeat split; assumption || reflexivity.
  - split; [exists 10%Q, [Some 20%Q; Some 30%Q]; split; [reflexivity | cbn; lia] | constructor].
Qed.

Lemma metrics_fold_fin (l : list (option Q)) (a b c : Q) :
  exists a' b' c', fold_left metrics_step l (Fin a, Fin b, c) = (Fin a', Fin b', c').
Proof.
  revert a b c. induction l as [|[x|] l IH]; intros a b c; cbn [fold_left].
  - eauto.
  - cbn [metrics_step Math_min Math_max]. apply IH.
  - cbn [metrics_step]. apply IH.
Qed.

(** X11: in every state reachable from page load, the draft starts with
    a number (never a hole) and has at least three entries, and every run
    in the log was built from a non-blank input: four derived signals after
    at least three draft entries, metrics computed from its own signals,
    with min, max and mean all numbers (never NaN) and a count of at least
    7. *)
Theorem reachable_runs_shape (acts : list Action) :
  draft_shape (signalsDraft (run_actions acts initial_state)) /\
  Forall (fun r =>
    run_shape r /\ List.length (derived r) = 4 /\ 7 <= count (metrics r) /\
    exists mn mx mu,
      min (metrics r) = Fin mn /\ max (metrics r) = Fin mx /\ mean (metrics r) = Fin mu)
    (runs (run_actions acts initial_state)).
Proof.
  assert (Hinv : calib_inv (run_actions acts initial_state)).
  { unfold run_actions.
    assert (H0 : forall s, calib_inv s -> calib_inv (fold_left (fun st a => step a st) acts s)).
    { induction acts as [|a acts IH]; intros s H; [exact H|]. cbn [fold_left].
      apply IH, calib_step_inv, H. }
    apply H0.
    split; [exists 10%Q, [Some 20%Q; Some 30%Q]; split; [reflexivity | cbn; lia] | constructor]. }
  destruct Hinv as [Hd Hr]. split; [exact Hd|].
  eapply Forall_impl; [|exact Hr]. intros r Hrs.
  split; [exact Hrs|].
  destruct Hrs as (text & q & pre & _ & Hder & Hsig & Hpre & Hm).
  assert (Hlen : List.length (derived r) = 4) by (rewrite Hder; reflexivity).
  split; [exact Hlen|].
  rewrite Hm, Hsig. unfold deriveMetrics. cbn [first_value].
  destruct (metrics_fold_fin (Some q :: pre ++ map Some (derived r)) q q 0)
    as (mn & mx & sm & ->).
  cbn [count min max mean]. split.
  - cbn [List.length]. rewrite length_app, length_map, Hlen. lia.
  - exists mn, mx, (toFixed2 (sm / inject_Z (Z.of_nat (List.length
      (Some q :: pre ++ map Some (derived r)))))).
    repeat split.
Qed.

(** X12: a second submit right after a successful one finds the input
    field cleared, so it only sets the "Raw Input is required" error; no
    second run is recorded and the status stays "complete". *)
Theorem submit_twice (now now' : Z) (s : State) :
  nonblank (rawInput s) ->
  submitCalibration now' (submitCalibration now s) =
  {| status := Complete; signalsDraft := signalsDraft s; rawInput := "";
     runs := runs (submitCalibration now s); error := Some raw_input_required |}.
Proof.
  intros H. rewrite (submit_nonblank_eq now s H).
  rewrite submit_blank_eq by reflexivity. reflexivity.
Qed.

Lemma submit_twice_witness :
  submitCalibration 2 (submitCalibration 1 (updateRawInput "go" initial_state)) =
  {| status := Complete; signalsDraft := signalsDraft (updateRawInput "go" initial_state);
     rawInput := "";
     runs := runs (submitCalibration 1 (updateRawInput "go" initial_state));
     error := Some raw_input_required |}.
Proof. apply submit_twice. cbn. discriminate. Defined.

(** X13: [interpret] gives "Ready" exactly when the sentence count it
    uses is at most 3 and [mean + textLength] is at most 200; a NaN or
    undefined mean makes every pressure comparison false, so it never
    blocks "Ready". *)
Theorem readiness_iff (m : Metrics) (textSignals : list Q) :
  readiness (interpret (Some m) textSignals) = Ready <->
  (match mean m with
   | Fin mu => (mu + interp_textLength textSignals <= 200)%Q
   | NaN | Undefined => True
   end) /\ (interp_sentenceCount textSignals <= 3)%Q.
Proof.
  assert (Hc : forall x : Q,
    level_eqb (if num_gt (Fin x) 6 then Low else if num_gt (Fin x) 3 then Medium else High)
      High = true <-> (x <= 3)%Q).
  { intros x. destruct (num_gt (Fin x) 3) eqn:E3.
    - apply num_gt_fin in E3.
      destruct (num_gt (Fin x) 6); cbn [level_eqb]; split; try discriminate; intros; lra.
    - apply num_gt_fin_false in E3. destruct (num_gt (Fin x) 6) eqn:E6.
      + apply num_gt_fin in E6. exfalso. lra.
      + cbn [level_eqb]. split; auto. }
  assert (Hp : forall p : num,
    negb (level_eqb (if num_gt p 200 then High else if num_gt p 80 then Medium else Low)
      High) = true <-> num_gt p 200 = false).
  { intros p. destruct (num_gt p 200), (num_gt p 80); cbn; split; congruence. }
  assert (Hm : num_gt (num_add (mean m) (Fin (interp_textLength textSignals))) 200 = false <->
    match mean m with
    | Fin mu => (mu + interp_textLength textSignals <= 200)%Q
    | NaN | Undefined => True
    end).
  { destruct (mean m) as [mu| |]; cbn [num_add]; [apply num_gt_fin_false | split; auto ..]. }
  unfold interpret. cbn zeta.
  rewrite <- Hm, <- (Hc (interp_sentenceCount textSignals)), <- Hp.
  destruct (_ && _) eqn:E.
  - apply andb_prop in E as [E1 E2]. split; [intros _; split; assumption | reflexivity].
  - split; [discriminate|]. intros [H1 H2]. rewrite H1, H2 in E. discriminate.
Qed.

Lemma metrics_fold_sum (l : list (option Q)) (a b : num) (c : Q) :
  snd (fold_left metrics_step l (a, b, c)) =
  fold_left (fun acc o => match o with Some q => (acc + q)%Q | None => acc end) l c.
Proof.
  revert a b c. induction l as [|[q|] l IH]; intros a b c; cbn [fold_left]; [reflexivity | |].
  - cbn [metrics_step]. apply IH.
  - cbn [metrics_step]. apply IH.
Qed.

Lemma metrics_fold_nan (l : list (option Q)) (c : Q) :
  exists c', fold_left metrics_step l (NaN, NaN, c) = (NaN, NaN, c').
Proof.
  revert c. induction l as [|[q|] l IH]; intros c; cbn [fold_left]; [eauto | |].
  - cbn [metrics_step Math_min Math_max]. apply IH.
  - cbn [metrics_step]. apply IH.
Qed.

Lemma metrics_fold_undefined (l : list (option Q)) (c : Q) :
  exists c', fold_left metrics_step l (Undefined, Undefined, c) =
    (if existsb (fun o => match o with Some _ => true | None => false end) l
     then (NaN, NaN, c') else (Undefined, Undefined, c')).
Proof.
  revert c. induction l as [|[q|] l IH]; intros c; cbn [fold_left existsb orb]; [eauto | |].
  - cbn [metrics_step Math_min Math_max]. apply metrics_fold_nan.
  - cbn [metrics_step]. apply IH.
Qed.

Lemma metrics_fold_skip_holes (l : list (option Q)) (acc : num * num * Q) :
  fold_left metrics_step (filter (fun o => match o with Some _ => true | None => false end) l) acc =
  fold_left metrics_step l acc.
Proof.
  revert acc. induction l as [|[q|] l IH]; intros acc; cbn [filter fold_left]; [reflexivity | |].
  - apply IH.
  - rewrite IH. reflexivity.
Qed.

Lemma deriveMetrics_mean_eq (sigs : list (option Q)) :
  sigs <> [] ->
  mean (deriveMetrics sigs) =
  Fin (toFixed2
    (fold_left (fun acc o => match o with Some q => (acc + q)%Q | None => acc end) sigs 0%Q
     / inject_Z (Z.of_nat (List.length sigs)))).
Proof.
  intros Hne.
  pose proof (metrics_fold_sum sigs (first_value sigs) (first_value sigs) 0%Q) as Hs.
  unfold deriveMetrics.
  destruct (fold_left metrics_step sigs (first_value sigs, first_value sigs, 0%Q))
    as [[mn mx] sm] eqn:E.
  cbn [snd] in Hs. cbn [mean].
  destruct sigs; [contradiction|]. rewrite Hs. reflexivity.
Qed.

Lemma toFixed2_Qeq (x y : Q) : (x == y)%Q -> toFixed2 x = toFixed2 y.
Proof.
  intros H. unfold toFixed2, round_half_up.
  assert (Hb : Qle_bool 0 x = Qle_bool 0 y).
  { destruct (Qle_bool 0 x) eqn:Ex, (Qle_bool 0 y) eqn:Ey; try reflexivity.
    - apply Qle_bool_iff in Ex. rewrite H in Ex. apply Qle_bool_iff in Ex. congruence.
    - apply Qle_bool_iff in Ey. rewrite <- H in Ey. apply Qle_bool_iff in Ey. congruence. }
  rewrite Hb.
  assert (H1 : Qfloor (x * 100 + (1 # 2)) = Qfloor (y * 100 + (1 # 2))).
  { apply Qfloor_comp. rewrite H. reflexivity. }
  assert (H2 : Qfloor (- x * 100 + (1 # 2)) = Qfloor (- y * 100 + (1 # 2))).
  { apply Qfloor_comp. rewrite H. reflexivity. }
  rewrite H1, H2. reflexivity.
Qed.

Lemma sum_fill_holes (l : list (option Q)) (c c' : Q) :
  (c == c')%Q ->
  (fold_left (fun acc o => match o with Some q => (acc + q)%Q | None => acc end)
     (map (fun o => Some match o with Some q => q | None => 0%Q end) l) c ==
   fold_left (fun acc o => match o with Some q => (acc + q)%Q | None => acc end) l c')%Q.
Proof.
  revert c c'. induction l as [|[q|] l IH]; intros c c' H; cbn [map fold_left]; [exact H | |].
  - apply IH. rewrite H. reflexivity.
  - apply IH. rewrite H. apply Qplus_0_r.
Qed.

(** X14: [deriveMetrics] on a sparse array. [count] is the array length.
    [forEach] skips the holes: they are left out of min and max, and for
    the mean they count as zeros (nothing added to the sum, one more in
    [signals.length]). When [signals[0]] is a hole, min and max start from
    [undefined]: they become NaN as soon as one number is present, and stay
    [undefined] when the array has no number at all (or is empty). *)
Theorem deriveMetrics_holes (sigs : list (option Q)) :
  count (deriveMetrics sigs) = List.length sigs /\
  mean (deriveMetrics sigs) =
    mean (deriveMetrics (map (fun o => Some match o with Some q => q | None => 0%Q end) sigs)) /\
  (match sigs with
   | Some _ :: _ =>
       let present := filter (fun o => match o with Some _ => true | None => false end) sigs in
       min (deriveMetrics sigs) = min (deriveMetrics present) /\
       max (deriveMetrics sigs) = max (deriveMetrics present)
   | _ =>
       let v := if existsb (fun o => match o with Some _ => true | None => false end) sigs
                then NaN else Undefined in
       min (deriveMetrics sigs) = v /\ max (deriveMetrics sigs) = v
   end).
Proof.
  split; [|split].
  - unfold deriveMetrics.
    destruct (fold_left metrics_step sigs (first_value sigs, first_value sigs, 0%Q))
      as [[mn mx] sm]. reflexivity.
  - destruct sigs as [|o rest]; [reflexivity|].
    rewrite (deriveMetrics_mean_eq (o :: rest)) by discriminate.
    rewrite deriveMetrics_mean_eq by discriminate.
    rewrite length_map. f_equal. apply toFixed2_Qeq.
    rewrite (sum_fill_holes (o :: rest) 0%Q 0%Q) by reflexivity. reflexivity.
  - destruct sigs as [|[q|] rest]; cbv zeta.
    + split; reflexivity.
    + unfold deriveMetrics. cbn [filter first_value].
      change (Some q :: filter (fun o => match o with Some _ => true | None => false end) rest)
        with (filter (fun o => match o with Some _ => true | None => false end) (Some q :: rest)).
      rewrite metrics_fold_skip_holes.
      destruct (fold_left metrics_step (Some q :: rest) (Fin q, Fin q, 0%Q)) as [[mn mx] sm].
      split; reflexivity.
    + unfold deriveMetrics. cbn [first_value].
      destruct (metrics_fold_undefined (None :: rest) 0%Q) as [c' Hc']. rewrite Hc'.
      destruct (existsb _ (None :: rest)); split; reflexivity.
Qed.

Lemma sanitize_normal_form_witness : sanitize "a b" = "a b".
Proof. apply (proj1 (proj2 (sanitize_normal_form "a b"))). reflexivity. Defined.
